(** * Agent SDK orchestration: a shallow embedding of [AgentSDK] and
      [OpenAIAgentsSDK] (src/unnamed/part_002), with [createChatCompletion]
      (src/src/config/openai.js) and [ResponsesAPI.chat] (src/unnamed/part_004).

    JavaScript values are modelled by [jsval]; objects are association lists
    kept in insertion order, as JS property order is.  An [async] method is a
    computation in a state and error monad [M]: it reads and writes the
    instance state and may throw an [Error], represented by its [message].
    All external collaborators (the OpenAI HTTP client, the agents framework,
    the tool classes, uuid, the clock, JSON) are fields of a record [Env]; a
    counter [tick] in the state numbers their calls, so an external service
    may answer each call differently. *)

From Stdlib Require Import String Ascii List Bool QArith ZArith Lia.
Import ListNotations.
Open Scope string_scope.
Set Warnings "-register-all".

(** ** JavaScript values *)

Inductive jsval : Type :=
| JUndef
| JNull
| JBool (b : bool)
| JNum (q : Q)
| JStr (s : string)
| JArr (xs : list jsval)
| JObj (fs : list (string * jsval)).

(** An object literal or a stored object: its own properties, in order. *)
Definition obj := list (string * jsval).

(** ECMAScript ToBoolean (JSON never yields NaN). *)
Definition truthy (v : jsval) : bool :=
  match v with
  | JUndef | JNull => false
  | JBool b => b
  | JNum q => negb (Qeq_bool q 0)
  | JStr s => negb (String.eqb s "")
  | JArr _ | JObj _ => true
  end.

(** [a || b] *)
Definition js_or (a b : jsval) : jsval := if truthy a then a else b.

(** A destructuring default [x = d]: applies when the value is [undefined]. *)
Definition dflt (v d : jsval) : jsval :=
  match v with JUndef => d | _ => v end.

Fixpoint obj_get (o : obj) (k : string) : jsval :=
  match o with
  | [] => JUndef
  | (k', v) :: o' => if String.eqb k k' then v else obj_get o' k
  end.

(** [o[k] = v] on an ordinary object: an existing property keeps its place,
    a new one is added last. *)
Fixpoint obj_set (o : obj) (k : string) (v : jsval) : obj :=
  match o with
  | [] => [(k, v)]
  | (k', v') :: o' =>
      if String.eqb k k' then (k', v) :: o' else (k', v') :: obj_set o' k v
  end.

Fixpoint concat_sep (sep : string) (l : list string) : string :=
  match l with
  | [] => ""
  | [s] => s
  | s :: l' => s ++ sep ++ concat_sep sep l'
  end.

Fixpoint dec_digits (fuel n : nat) (acc : string) : string :=
  match fuel with
  | O => acc
  | S f =>
      let acc' := String (ascii_of_nat (48 + n mod 10)) acc in
      if Nat.ltb n 10 then acc' else dec_digits f (n / 10) acc'
  end.

(** The canonical decimal spelling of an array index. *)
Definition dec_string (n : nat) : string := dec_digits (S n) n "".

(** ** Results, errors and the monad *)

(** Every [throw] site of the modelled code throws an [Error] (its own
    [new Error(..)], a [TypeError] of the engine, or the rejection of an
    external call), so an exception is represented by its [message]. *)
Inductive res (A : Type) : Type :=
| Ok (a : A)
| Throw (message : string).
Arguments Ok {A} a.
Arguments Throw {A} message.

Definition M (S A : Type) : Type := S -> res A * S.

Section Monad.
Context {S : Type}.

Definition ret {A} (a : A) : M S A := fun s => (Ok a, s).
Definition throw {A} (m : string) : M S A := fun s => (Throw m, s).
Definition bind {A B} (m : M S A) (k : A -> M S B) : M S B :=
  fun s => match m s with
           | (Ok a, s') => k a s'
           | (Throw e, s') => (Throw e, s')
           end.
(** [try { m } catch (error) { h(error.message) }] *)
Definition try_catch {A} (m : M S A) (h : string -> M S A) : M S A :=
  fun s => match m s with
           | (Ok a, s') => (Ok a, s')
           | (Throw e, s') => h e s'
           end.
Definition lift {A} (r : res A) : M S A := fun s => (r, s).
Definition gets {A} (f : S -> A) : M S A := fun s => (Ok (f s), s).
Definition modify (f : S -> S) : M S unit := fun s => (Ok tt, f s).
End Monad.

Declare Scope js_scope.
Delimit Scope js_scope with js.
Notation "x <- m ;; k" := (bind m (fun x => k))
  (at level 61, m at next level, right associativity) : js_scope.
Notation "m ;;; k" := (bind m (fun _ => k))
  (at level 61, right associativity) : js_scope.
Open Scope js_scope.

(** ** Property access and the builtins the code calls *)

Inductive prop := PName (s : string) | PIdx (n : nat).

Definition prop_text (p : prop) : string :=
  match p with PName s => s | PIdx n => dec_string n end.

(** [v.p] and [v[n]], with the engine's [TypeError] on [undefined] and
    [null].  The property names the code reads are no members of
    [Object.prototype], so an absent own property reads as [undefined]. *)
Definition getp (v : jsval) (p : prop) : res jsval :=
  match v with
  | JUndef => Throw ("Cannot read properties of undefined (reading '"
                       ++ prop_text p ++ "')")
  | JNull => Throw ("Cannot read properties of null (reading '"
                      ++ prop_text p ++ "')")
  | JObj fs => Ok (obj_get fs (prop_text p))
  | JArr xs =>
      match p with
      | PIdx n => Ok (nth n xs JUndef)
      | PName "length" => Ok (JNum (inject_Z (Z.of_nat (length xs))))
      | PName _ => Ok JUndef
      end
  | JStr s =>
      match p with
      | PIdx n => match String.get n s with
                  | Some c => Ok (JStr (String c EmptyString))
                  | None => Ok JUndef
                  end
      | PName "length" => Ok (JNum (inject_Z (Z.of_nat (String.length s))))
      | PName _ => Ok JUndef
      end
  | JBool _ | JNum _ => Ok JUndef
  end.

Fixpoint getps (v : jsval) (ps : list prop) : res jsval :=
  match ps with
  | [] => Ok v
  | p :: ps' => match getp v p with
                | Ok v' => getps v' ps'
                | Throw e => Throw e
                end
  end.

(** [response.choices[0].message.content] *)
Definition completion_content (response : jsval) : res jsval :=
  getps response [PName "choices"; PIdx 0; PName "message"; PName "content"].

(** An agent object of the [@openai/agents] framework, [new Agent({..})]. *)
Inductive OAgent : Type :=
| mkOAgent (name instructions : string) (model : option string)
           (handoffs : list OAgent).

Definition oagent_name (a : OAgent) : string :=
  match a with mkOAgent n _ _ _ => n end.

(** ** External collaborators *)

Record Env : Type := mkEnv {
  (** [Number.prototype.toString] *)
  num_to_string : Q -> string;
  (** [JSON.stringify(v, null, indent)] *)
  json_stringify : nat -> jsval -> string;
  (** [JSON.parse]; [None] is its [SyntaxError] *)
  json_parse : string -> option jsval;
  (** [uuidv4()], [new Date().toISOString()] and [Date.now()] at a tick *)
  uuidv4 : nat -> string;
  iso_now : nat -> string;
  now_ms : nat -> Z;
  (** the module-level [openai] client of config/openai.js was created *)
  openai_ready : bool;
  (** [openai.chat.completions.create(..)] on the given messages and options *)
  openai_create : nat -> list (string * jsval) -> jsval -> res jsval;
  (** [WebSearchAgent.search(query, maxResults)],
      [FileSearchAgent.searchInFile(filePath, query)],
      [ComputerUseAgent.execute(context)] *)
  web_search : nat -> jsval -> jsval -> res jsval;
  file_search : nat -> jsval -> jsval -> res jsval;
  computer_use : nat -> jsval -> res jsval;
  (** [run(agent, input)] of [@openai/agents] *)
  agents_run : nat -> OAgent -> jsval -> res jsval;
  (** [process.env.DEFAULT_MODEL], and [parseFloat(process.env.TEMPERATURE)],
      [parseInt(process.env.MAX_TOKENS)] where [None] is [NaN] *)
  proc_DEFAULT_MODEL : jsval;
  proc_TEMPERATURE : option Q;
  proc_MAX_TOKENS : option Q
}.

(** States that number the external calls. *)
Class Ticks (St : Type) := {
  tick_of : St -> nat;
  with_tick : St -> nat -> St
}.

Section Builtins.
Variable env : Env.

(** ECMAScript ToString, as used by template literals and [join]; an
    object is [Object.prototype.toString]'s ["[object Object]"]. *)
Fixpoint js_to_string (v : jsval) : string :=
  match v with
  | JUndef => "undefined"
  | JNull => "null"
  | JBool true => "true"
  | JBool false => "false"
  | JNum q => num_to_string env q
  | JStr s => s
  | JArr xs =>
      concat_sep ","
        (map (fun x => match x with
                       | JUndef | JNull => ""
                       | _ => js_to_string x
                       end) xs)
  | JObj _ => "[object Object]"
  end.

(** An element as [Array.prototype.join] writes it. *)
Definition elem_text (x : jsval) : string :=
  match x with JUndef | JNull => "" | _ => js_to_string x end.

(** [v.join(sep)]; [expr] is the source text of [v], as in the engine's
    message. *)
Definition js_join (expr sep : string) (v : jsval) : res string :=
  match v with
  | JArr xs => Ok (concat_sep sep (map elem_text xs))
  | JUndef => Throw "Cannot read properties of undefined (reading 'join')"
  | JNull => Throw "Cannot read properties of null (reading 'join')"
  | _ => Throw (expr ++ ".join is not a function")
  end.

(** The values a [for (const x of v)] loop visits. *)
Definition js_iter (expr : string) (v : jsval) : res (list jsval) :=
  match v with
  | JArr xs => Ok xs
  | JStr s => Ok (map (fun c => JStr (String c EmptyString))
                      (list_ascii_of_string s))
  | _ => Throw (expr ++ " is not iterable")
  end.

Context {St : Type} `{Ticks St}.

Definition next_tick : M St nat :=
  fun s => (Ok (tick_of s), with_tick s (S (tick_of s))).

(** One call of an external collaborator. *)
Definition ext {A} (f : nat -> res A) : M St A :=
  n <- next_tick ;; lift (f n).

Definition new_date_iso : M St string := ext (fun n => Ok (iso_now env n)).
Definition uuid : M St string := ext (fun n => Ok (uuidv4 env n)).

(** [createChatCompletion(messages, options)], config/openai.js. *)
Definition createChatCompletion (messages : list (string * jsval))
           (options : jsval) : M St jsval :=
  if negb (openai_ready env)
  then throw "OpenAI client not initialized. Please check your API key."
  else try_catch (ext (fun n => openai_create env n messages options))
                 (fun m => throw ("OpenAI API Error: " ++ m)).
End Builtins.

Definition dq : string := String (ascii_of_nat 34) EmptyString.
Definition nl : string := String (ascii_of_nat 10) EmptyString.
(** A double-quoted piece of a template literal, ["${s}"]. *)
Definition quoted (s : string) : string := dq ++ s ++ dq.

(** ** [class AgentSDK] (src/unnamed/part_002, lines 491-1026) *)
Module AgentSDK.

(** The conversation objects [{ id, agentId, messages, created }]. *)
Record Conversation : Type := mkConv {
  conv_id : jsval;
  conv_agentId : string;
  conv_messages : list jsval;
  conv_created : string
}.

(** The instance: [this.agents] (a [Map] from the uuid strings to the agent
    objects), [this.conversations] (a [Map] keyed by [conversationId]) and
    the call counter of the external collaborators. *)
Record SDK : Type := mkSDK {
  agents : list (string * obj);
  conversations : list (jsval * Conversation);
  tick : nat
}.

#[export] Instance SDK_ticks : Ticks SDK := {
  tick_of := tick;
  with_tick := fun s n => mkSDK (agents s) (conversations s) n
}.

Definition set_agents (s : SDK) (a : list (string * obj)) : SDK :=
  mkSDK a (conversations s) (tick s).
Definition set_conversations (s : SDK) (c : list (jsval * Conversation)) : SDK :=
  mkSDK (agents s) c (tick s).

(** [new AgentSDK()] *)
Definition initial : SDK := mkSDK [] [] 0.

(** [Map.prototype.get], [set] and [delete] on the string-keyed [this.agents]. *)
Fixpoint map_get {V} (k : string) (m : list (string * V)) : option V :=
  match m with
  | [] => None
  | (k', v) :: m' => if String.eqb k k' then Some v else map_get k m'
  end.

Fixpoint map_set {V} (k : string) (v : V) (m : list (string * V))
  : list (string * V) :=
  match m with
  | [] => [(k, v)]
  | (k', v') :: m' =>
      if String.eqb k k' then (k', v) :: m' else (k', v') :: map_set k v m'
  end.

Fixpoint map_delete {V} (k : string) (m : list (string * V))
  : list (string * V) :=
  match m with
  | [] => []
  | (k', v') :: m' => if String.eqb k k' then m' else (k', v') :: map_delete k m'
  end.

(** SameValueZero, the key equality of [Map].  Two objects are the same key
    only when they are the same reference; a [conversationId] object comes
    from a fresh request body, so it is never a key already stored. *)
Definition same_value_zero (a b : jsval) : bool :=
  match a, b with
  | JUndef, JUndef | JNull, JNull => true
  | JBool x, JBool y => Bool.eqb x y
  | JNum x, JNum y => Qeq_bool x y
  | JStr x, JStr y => String.eqb x y
  | _, _ => false
  end.

Fixpoint conv_index (k : jsval) (m : list (jsval * Conversation)) : option nat :=
  match m with
  | [] => None
  | (k', _) :: m' =>
      if same_value_zero k k' then Some O
      else option_map S (conv_index k m')
  end.

(** [conversation.messages.push(turn)] on the conversation stored at [i]. *)
Fixpoint push_at (i : nat) (turn : jsval) (m : list (jsval * Conversation))
  : list (jsval * Conversation) :=
  match m, i with
  | [], _ => []
  | (k, c) :: m', O =>
      (k, mkConv (conv_id c) (conv_agentId c) (conv_messages c ++ [turn])%list
                 (conv_created c)) :: m'
  | kc :: m', S i' => kc :: push_at i' turn m'
  end.

(** The values of [this.tools = initializeTools()]: an object literal, whose
    lookups also reach the members of [Object.prototype]. *)
Inductive tool : Type :=
| WebSearchTool | FileSearchTool | ComputerUseTool
| ProtoMember (name : string).

Definition object_prototype_members : list string :=
  ["constructor"; "__defineGetter__"; "__defineSetter__"; "hasOwnProperty";
   "__lookupGetter__"; "__lookupSetter__"; "isPrototypeOf";
   "propertyIsEnumerable"; "toString"; "valueOf"; "__proto__";
   "toLocaleString"].

(** [this.tools[key]]; [None] is [undefined], every other value is truthy. *)
Definition tools_get (key : string) : option tool :=
  if String.eqb key "web_search" then Some WebSearchTool
  else if String.eqb key "file_search" then Some FileSearchTool
  else if String.eqb key "computer_use" then Some ComputerUseTool
  else if existsb (String.eqb key) object_prototype_members
  then Some (ProtoMember key)
  else None.

(** [Object.keys(this.tools)] *)
Definition tool_names : list string := ["web_search"; "file_search"; "computer_use"].

Definition jobj_error (e : string) : jsval :=
  JObj [("success", JBool false); ("error", JStr e)].

Section Methods.
Variable env : Env.
Local Abbreviation str := (js_to_string env).

Definition getm (v : jsval) (p : string) : M SDK jsval := lift (getp v (PName p)).

(** [const agent = this.agents.get(agentId); if (!agent) throw ..] *)
Definition find_agent (agentId : string) : M SDK obj :=
  fun s => match map_get agentId (agents s) with
           | Some a => (Ok a, s)
           | None => (Throw "Agent not found", s)
           end.

(** [analyzeTask(agent, task, context)], lines 669-708. *)
Definition analyzeTask (agent : obj) (task context : jsval) : M SDK jsval :=
  try_catch
    (tools_text <- lift (js_join env "agent.tools" ", " (obj_get agent "tools")) ;;
     let messages :=
       [("system", JStr (str (obj_get agent "systemPrompt") ++ nl ++ nl
          ++ "You are analyzing a task to determine what actions are needed. Available tools: "
          ++ tools_text));
        ("user", JStr ("Analyze this task and determine what tools or actions are needed: "
          ++ quoted (str task) ++ nl ++ nl ++ "Context: " ++ json_stringify env 0 context
          ++ nl ++ nl ++ "Respond with a JSON object containing: { "
          ++ quoted "taskType" ++ ": " ++ quoted "..." ++ ", "
          ++ quoted "requiredTools" ++ ": [...], "
          ++ quoted "complexity" ++ ": " ++ quoted "low/medium/high" ++ ", "
          ++ quoted "estimatedSteps" ++ ": [...] }"))] in
     response <- createChatCompletion env messages
                   (JObj [("temperature", JNum (3 # 10)); ("max_tokens", JNum 500)]) ;;
     try_catch
       (content <- lift (completion_content response) ;;
        match json_parse env (str content) with
        | Some analysis => ret analysis
        | None => throw "SyntaxError"
        end)
       (fun _ =>
          content <- lift (completion_content response) ;;
          ret (JObj [("taskType", JStr "general");
                     ("requiredTools", obj_get agent "tools");
                     ("complexity", JStr "medium");
                     ("estimatedSteps", JArr [JStr "Analyze task"; JStr "Execute"; JStr "Respond"]);
                     ("rawAnalysis", content)])))
    (fun e => ret (JObj [("taskType", JStr "unknown"); ("requiredTools", JArr []);
                         ("complexity", JStr "unknown"); ("error", JStr e)])).

(** The text of the fallback Plan of [createExecutionPlan]. *)
Definition fallback_plan_steps (task : jsval) : string :=
  "1. Analyze the task: " ++ quoted (str task) ++ nl
  ++ "2. Execute appropriate actions" ++ nl ++ "3. Provide results".

(** [createExecutionPlan(agent, task, analysis, context)], lines 713-744. *)
Definition createExecutionPlan (agent : obj) (task analysis context : jsval)
  : M SDK jsval :=
  try_catch
    (let messages :=
       [("system", JStr (str (obj_get agent "systemPrompt") ++ nl ++ nl
          ++ "You are creating an execution plan. Break down the task into clear, actionable steps."));
        ("user", JStr ("Create an execution plan for: " ++ quoted (str task) ++ nl ++ nl
          ++ "Task Analysis: " ++ json_stringify env 0 analysis ++ nl ++ nl
          ++ "Create a step-by-step plan with specific actions and tools to use."))] in
     response <- createChatCompletion env messages
                   (JObj [("temperature", JNum (3 # 10)); ("max_tokens", JNum 800)]) ;;
     steps <- lift (completion_content response) ;;
     rt <- getm analysis "requiredTools" ;;
     cx <- getm analysis "complexity" ;;
     ret (JObj [("steps", steps); ("requiredTools", js_or rt (JArr []));
                ("complexity", js_or cx (JStr "medium"))]))
    (fun e => ret (JObj [("steps", JStr (fallback_plan_steps task));
                         ("requiredTools", JArr []); ("complexity", JStr "unknown");
                         ("error", JStr e)])).

(** [executeTool(toolName, context)], lines 784-817. *)
Definition executeTool (toolName context : jsval) : M SDK jsval :=
  try_catch
    (match tools_get (str toolName) with
     | None => throw ("Tool not found: " ++ str toolName)
     | Some _ =>
         let needs_context : M SDK jsval :=
           throw ("Tool " ++ str toolName ++ " requires additional context") in
         match toolName with
         | JStr "web_search" =>
             query <- getm context "query" ;;
             if truthy query then
               maxResults <- getm context "maxResults" ;;
               ext (fun n => web_search env n query (js_or maxResults (JNum 5)))
             else needs_context
         | JStr "file_search" =>
             filePath <- getm context "filePath" ;;
             if truthy filePath then
               query <- getm context "query" ;;
               if truthy query then ext (fun n => file_search env n filePath query)
               else needs_context
             else needs_context
         | JStr "computer_use" =>
             action <- getm context "action" ;;
             action_or_command <- (if truthy action then ret action else getm context "command") ;;
             if truthy action_or_command then ext (fun n => computer_use env n context)
             else needs_context
         | _ => needs_context
         end
     end)
    (fun e => ret (JObj [("success", JBool false); ("error", JStr e); ("tool", toolName)])).

(** The body of the [for (const toolName of plan.requiredTools)] loop of
    [executePlan]: the pushed [results] and [toolCalls], in order. *)
Fixpoint dispatch (names : list jsval) (context : jsval)
  : M SDK (list jsval * list jsval) :=
  match names with
  | [] => ret ([], [])
  | toolName :: rest =>
      match tools_get (str toolName) with
      | Some _ =>
          toolResult <- executeTool toolName context ;;
          acc <- dispatch rest context ;;
          ret (toolResult :: fst acc,
               JObj [("tool", toolName); ("result", toolResult)] :: snd acc)
      | None => dispatch rest context
      end
  end.

(** [executePlan(agent, plan, context)], lines 749-779. *)
Definition executePlan (agent : obj) (plan context : jsval) : M SDK jsval :=
  try_catch
    (required <- getm plan "requiredTools" ;;
     names <- lift (js_iter "plan.requiredTools" required) ;;
     acc <- dispatch names context ;;
     ret (JObj [("results", JArr (fst acc)); ("toolCalls", JArr (snd acc));
                ("status", JStr "completed")]))
    (fun e => ret (JObj [("results", JArr []); ("toolCalls", JArr []);
                         ("status", JStr "failed"); ("error", JStr e)])).

(** The apology of [generateFinalResponse] when its completion fails. *)
Definition apology (task : jsval) (e : string) : string :=
  "I completed the task " ++ quoted (str task)
  ++ " but encountered an error generating the response: " ++ e.

(** [execution.results.map(result => typeof result === 'object' ?
    JSON.stringify(result, null, 2) : result)] *)
Definition summarize_results (results : jsval) : res (list jsval) :=
  match results with
  | JArr xs =>
      Ok (map (fun r => match r with
                        | JNull | JArr _ | JObj _ => JStr (json_stringify env 2 r)
                        | _ => r
                        end) xs)
  | JUndef => Throw "Cannot read properties of undefined (reading 'map')"
  | JNull => Throw "Cannot read properties of null (reading 'map')"
  | _ => Throw "execution.results.map is not a function"
  end.

(** [generateFinalResponse(agent, task, execution, context)], lines 822-848. *)
Definition generateFinalResponse (agent : obj) (task execution context : jsval)
  : M SDK jsval :=
  try_catch
    (results <- getm execution "results" ;;
     parts <- lift (summarize_results results) ;;
     let executionSummary := concat_sep (nl ++ nl) (map (elem_text env) parts) in
     let messages :=
       [("system", JStr (str (obj_get agent "systemPrompt") ++ nl ++ nl
          ++ "You are providing a final response based on the execution results. Be helpful, accurate, and concise."));
        ("user", JStr ("Task: " ++ quoted (str task) ++ nl ++ nl ++ "Execution Results:" ++ nl
          ++ executionSummary ++ nl ++ nl
          ++ "Provide a comprehensive response to the user based on these results."))] in
     response <- createChatCompletion env messages
                   (JObj [("temperature", obj_get agent "temperature");
                          ("max_tokens", obj_get agent "max_tokens")]) ;;
     lift (completion_content response))
    (fun e => ret (JStr (apology task e))).

(** [processAgentTask(agent, task, conversation, context)], lines 630-664. *)
Definition processAgentTask (agent : obj) (task : jsval) (conversation : Conversation)
           (context : jsval) : M SDK jsval :=
  try_catch
    (analysis <- analyzeTask agent task context ;;
     plan <- createExecutionPlan agent task analysis context ;;
     execution <- executePlan agent plan context ;;
     response <- generateFinalResponse agent task execution context ;;
     toolCalls <- getm execution "toolCalls" ;;
     timestamp <- new_date_iso env ;;
     ret (JObj [("success", JBool true); ("agentId", obj_get agent "id");
                ("agentName", obj_get agent "name"); ("task", task);
                ("analysis", analysis); ("plan", plan); ("execution", execution);
                ("response", response); ("toolCalls", js_or toolCalls (JArr []));
                ("timestamp", JStr timestamp)]))
    (fun e => ret (JObj [("success", JBool false); ("error", JStr e);
                         ("agentId", obj_get agent "id"); ("task", task)])).

(** The result of [executeAgent] when it throws, lines 618-623. *)
Definition execution_error (e : string) (agentId : string) (task : jsval) : jsval :=
  JObj [("success", JBool false); ("error", JStr e); ("agentId", JStr agentId);
        ("task", task)].

(** [this.conversations.has(id)] and, when absent, [this.conversations.set(id,
    {..})]; the position of the conversation [this.conversations.get(id)]
    then returns. *)
Definition resolve_conversation (conversationId : jsval) (agentId : string)
  : M SDK nat :=
  fun s =>
    match conv_index conversationId (conversations s) with
    | Some i => (Ok i, s)
    | None =>
        match new_date_iso env s with
        | (Ok created, s') =>
            (Ok (length (conversations s')),
             set_conversations s'
               (conversations s' ++ [(conversationId,
                  mkConv conversationId agentId [] created)])%list)
        | (Throw e, s') => (Throw e, s')
        end
    end.

Definition get_conversation (i : nat) : M SDK Conversation :=
  fun s => (Ok (snd (nth i (conversations s) (JUndef, mkConv JUndef "" [] ""))), s).

Definition push_turn (i : nat) (turn : jsval) : M SDK unit :=
  modify (fun s => set_conversations s (push_at i turn (conversations s))).

(** [executeAgent(agentId, task, context = {})], lines 576-625. *)
Definition executeAgent (agentId : string) (task context0 : jsval) : M SDK jsval :=
  let context := dflt context0 (JObj []) in
  try_catch
    (agent <- find_agent agentId ;;
     cid <- getm context "conversationId" ;;
     conversationId <- (if truthy cid then ret cid
                        else u <- uuid env ;; ret (JStr u)) ;;
     i <- resolve_conversation conversationId agentId ;;
     conversation <- get_conversation i ;;
     executionResult <- processAgentTask agent task conversation context ;;
     t1 <- new_date_iso env ;;
     push_turn i (JObj [("role", JStr "user"); ("content", task);
                        ("timestamp", JStr t1)]) ;;;
     response <- getm executionResult "response" ;;
     toolCalls <- getm executionResult "toolCalls" ;;
     t2 <- new_date_iso env ;;
     push_turn i (JObj [("role", JStr "assistant"); ("content", response);
                        ("toolCalls", toolCalls); ("timestamp", JStr t2)]) ;;;
     ret executionResult)
    (fun e => ret (execution_error e agentId task)).

(** [generateDefaultSystemPrompt(name, description, capabilities)], lines 853-866. *)
Definition generateDefaultSystemPrompt (name description capabilities : jsval)
  : res string :=
  match js_join env "capabilities" ", " capabilities with
  | Ok caps =>
      Ok ("You are " ++ str name ++ ", an AI agent. "
          ++ str (js_or description (JStr "You are designed to be helpful and efficient."))
          ++ nl ++ nl ++ "Your capabilities include: " ++ caps ++ "." ++ nl ++ nl
          ++ "You should:" ++ nl
          ++ "1. Think step by step about each task" ++ nl
          ++ "2. Use available tools when appropriate" ++ nl
          ++ "3. Provide clear, helpful responses" ++ nl
          ++ "4. Be accurate and reliable" ++ nl
          ++ "5. Ask for clarification when needed" ++ nl ++ nl
          ++ "Always maintain a professional and helpful demeanor while completing tasks efficiently.")
  | Throw e => Throw e
  end.

(** [const { .. } = config]: a property of [config], with the engine's
    error on [undefined] and [null]. *)
Definition destructure (config : jsval) (p : string) : res jsval :=
  match config with
  | JUndef => Throw ("Cannot destructure property '" ++ p ++ "' of 'config' as it is undefined.")
  | JNull => Throw ("Cannot destructure property '" ++ p ++ "' of 'config' as it is null.")
  | _ => getp config (PName p)
  end.

(** [createAgent(config)], lines 514-571. *)
Definition createAgent (config : jsval) : M SDK jsval :=
  try_catch
    (name <- lift (destructure config "name") ;;
     description <- lift (destructure config "description") ;;
     capabilities <- lift (destructure config "capabilities") ;;
     systemPrompt <- lift (destructure config "systemPrompt") ;;
     tools <- lift (destructure config "tools") ;;
     personality <- lift (destructure config "personality") ;;
     memory <- lift (destructure config "memory") ;;
     max_tokens <- lift (destructure config "max_tokens") ;;
     temperature <- lift (destructure config "temperature") ;;
     let capabilities := dflt capabilities (JArr []) in
     let tools := dflt tools (JArr []) in
     let personality := dflt personality (JStr "helpful") in
     let memory := dflt memory (JBool true) in
     let max_tokens := dflt max_tokens (JNum 2000) in
     let temperature := dflt temperature (JNum (7 # 10)) in
     if negb (truthy name) then throw "Agent name is required" else
     agentId <- uuid env ;;
     prompt <- (if truthy systemPrompt then ret systemPrompt
                else p <- lift (generateDefaultSystemPrompt name description capabilities) ;;
                     ret (JStr p)) ;;
     created <- new_date_iso env ;;
     let agent : obj :=
       [("id", JStr agentId); ("name", name); ("description", description);
        ("capabilities", capabilities); ("systemPrompt", prompt); ("tools", tools);
        ("personality", personality); ("memory", memory); ("max_tokens", max_tokens);
        ("temperature", temperature); ("created", JStr created);
        ("conversations", JArr []); ("status", JStr "active")] in
     modify (fun s => set_agents s (map_set agentId agent (agents s))) ;;;
     ret (JObj [("success", JBool true);
                ("agent", JObj [("id", JStr agentId); ("name", name);
                                ("description", description);
                                ("capabilities", capabilities); ("tools", tools);
                                ("created", JStr created)])]))
    (fun e => ret (jobj_error e)).

(** [Object.entries(updates)]; the order among integer-like keys is not
    modelled, none of them is an allowed key. *)
Definition object_entries (v : jsval) : res (list (string * jsval)) :=
  match v with
  | JObj fs => Ok fs
  | JArr xs => Ok (combine (map dec_string (seq 0 (length xs))) xs)
  | JStr s => Ok (combine (map dec_string (seq 0 (String.length s)))
                          (map (fun c => JStr (String c EmptyString))
                               (list_ascii_of_string s)))
  | JUndef | JNull => Throw "Cannot convert undefined or null to object"
  | JBool _ | JNum _ => Ok []
  end.

Definition allowedUpdates : list string :=
  ["description"; "capabilities"; "systemPrompt"; "tools"; "personality";
   "max_tokens"; "temperature"].

(** The [for (const [key, value] of Object.entries(updates))] loop. *)
Definition apply_updates (agent : obj) (entries : list (string * jsval)) : obj :=
  fold_left (fun a kv =>
               if existsb (String.eqb (fst kv)) allowedUpdates
               then obj_set a (fst kv) (snd kv) else a) entries agent.

(** [updateAgent(agentId, updates)], lines 911-942. *)
Definition updateAgent (agentId : string) (updates : jsval) : M SDK jsval :=
  try_catch
    (agent <- find_agent agentId ;;
     entries <- lift (object_entries updates) ;;
     let agent := apply_updates agent entries in
     updated <- new_date_iso env ;;
     let agent := obj_set agent "updated" (JStr updated) in
     modify (fun s => set_agents s (map_set agentId agent (agents s))) ;;;
     ret (JObj [("success", JBool true);
                ("agent", JObj [("id", JStr agentId); ("updated", JStr updated)])]))
    (fun e => ret (jobj_error e)).

(** [deleteAgent(agentId)], lines 947-966. *)
Definition deleteAgent (agentId : string) : M SDK jsval :=
  try_catch
    (agent <- find_agent agentId ;;
     modify (fun s => set_agents s (map_delete agentId (agents s))) ;;;
     ret (JObj [("success", JBool true);
                ("message", JStr ("Agent " ++ str (obj_get agent "name")
                                  ++ " deleted successfully"))]))
    (fun e => ret (jobj_error e)).

(** [getAgent(agentId)], lines 893-906. *)
Definition getAgent (agentId : string) : M SDK jsval :=
  gets (fun s => match map_get agentId (agents s) with
                 | Some a => JObj [("success", JBool true); ("agent", JObj a)]
                 | None => jobj_error "Agent not found"
                 end).

(** One element of [listAgents]'s [agentList]. *)
Definition agent_summary (agent : obj) : res jsval :=
  match getp (obj_get agent "conversations") (PName "length") with
  | Ok count =>
      Ok (JObj [("id", obj_get agent "id"); ("name", obj_get agent "name");
                ("description", obj_get agent "description");
                ("capabilities", obj_get agent "capabilities");
                ("tools", obj_get agent "tools"); ("status", obj_get agent "status");
                ("created", obj_get agent "created"); ("conversationCount", count)])
  | Throw e => Throw e
  end.

Fixpoint summaries (l : list (string * obj)) : res (list jsval) :=
  match l with
  | [] => Ok []
  | (_, a) :: l' =>
      match agent_summary a, summaries l' with
      | Ok x, Ok xs => Ok (x :: xs)
      | Throw e, _ => Throw e
      | _, Throw e => Throw e
      end
  end.

(** [listAgents()], lines 871-888. *)
Definition listAgents : M SDK jsval :=
  fun s =>
    match summaries (agents s) with
    | Ok agentList =>
        (Ok (JObj [("agents", JArr agentList);
                   ("total", JNum (inject_Z (Z.of_nat (length agentList))));
                   ("availableTools", JArr (map JStr tool_names))]), s)
    | Throw e => (Throw e, s)
    end.

(** [getStatus()], lines 1010-1026: [this.agents.size] and
    [this.conversations.size] are the numbers of entries of the two maps. *)
Definition getStatus : M SDK jsval :=
  gets (fun s =>
    JObj [("name", JStr "AgentSDK");
          ("description", JStr "SDK for building custom AI agents that can think, plan, use tools, and talk with other agents");
          ("agentCount", JNum (inject_Z (Z.of_nat (length (agents s)))));
          ("conversationCount", JNum (inject_Z (Z.of_nat (length (conversations s)))));
          ("availableTools", JArr (map JStr tool_names));
          ("features", JArr (map JStr ["Custom agent creation"; "Task analysis and planning";
                                      "Tool integration"; "Agent-to-agent communication";
                                      "Conversation management"; "Memory and context handling"]))]).

(** [{ ...context, fromAgent, communicationType }] *)
Definition spread_context (context : jsval) (fromName : jsval) : jsval :=
  let own := match object_entries context with Ok fs => fs | Throw _ => [] end in
  JObj (obj_set (obj_set own "fromAgent" fromName)
                "communicationType" (JStr "agent-to-agent")).

(** [agentCommunication(fromAgentId, toAgentId, message, context = {})],
    lines 971-1005. *)
Definition agentCommunication (fromAgentId toAgentId : string) (message context0 : jsval)
  : M SDK jsval :=
  let context := dflt context0 (JObj []) in
  try_catch
    (agents_now <- gets agents ;;
     match map_get fromAgentId agents_now, map_get toAgentId agents_now with
     | Some fromAgent, Some toAgent =>
         response <- executeAgent toAgentId message
                       (spread_context context (obj_get fromAgent "name")) ;;
         text <- getm response "response" ;;
         timestamp <- new_date_iso env ;;
         ret (JObj [("success", JBool true); ("from", obj_get fromAgent "name");
                    ("to", obj_get toAgent "name"); ("message", message);
                    ("response", text); ("timestamp", JStr timestamp)])
     | _, _ => throw "One or both agents not found"
     end)
    (fun e => ret (JObj [("success", JBool false); ("error", JStr e);
                         ("fromAgentId", JStr fromAgentId); ("toAgentId", JStr toAgentId)])).
End Methods.

(** The public operations of an [AgentSDK] instance. *)
Inductive op : Type :=
| OpCreate (config : jsval)
| OpExecute (agentId : string) (task context : jsval)
| OpUpdate (agentId : string) (updates : jsval)
| OpDelete (agentId : string)
| OpGet (agentId : string)
| OpList
| OpCommunicate (fromAgentId toAgentId : string) (message context : jsval).

Definition run_op (env : Env) (o : op) : M SDK jsval :=
  match o with
  | OpCreate c => createAgent env c
  | OpExecute a t c => executeAgent env a t c
  | OpUpdate a u => updateAgent env a u
  | OpDelete a => deleteAgent env a
  | OpGet a => getAgent a
  | OpList => listAgents
  | OpCommunicate f t m c => agentCommunication env f t m c
  end.

(** The state after a sequence of operations. *)
Fixpoint run_ops (env : Env) (os : list op) (s : SDK) : SDK :=
  match os with
  | [] => s
  | o :: os' => run_ops env os' (snd (run_op env o s))
  end.

End AgentSDK.

(** ** The triage keyword patterns of [runFallbackAgent]

    [/\b(w1|w2|..)\b/i.test(s)] for literal alternatives [wi]: a match at
    some position [i] is an alternative read case-insensitively from [i]
    with a word boundary on both sides, and [test] backtracks through every
    start position and every alternative.  Without the [u] flag, word
    characters are [A-Za-z0-9_] and case folding never maps a character
    outside ASCII into it. *)
Module Triage.

Definition is_word_char (c : ascii) : bool :=
  let n := nat_of_ascii c in
  (Nat.leb 97 n && Nat.leb n 122) || (Nat.leb 65 n && Nat.leb n 90)
  || (Nat.leb 48 n && Nat.leb n 57) || Nat.eqb n 95.

Definition fold_case (c : ascii) : ascii :=
  let n := nat_of_ascii c in
  if Nat.leb 65 n && Nat.leb n 90 then ascii_of_nat (n + 32) else c.

Definition word_at (s : list ascii) (i : nat) : bool :=
  match nth_error s i with Some c => is_word_char c | None => false end.

(** [\b] at position [i]. *)
Definition boundary (s : list ascii) (i : nat) : bool :=
  let before := match i with O => false | S j => word_at s j end in
  xorb before (word_at s i).

Fixpoint reads_at (s w : list ascii) : bool :=
  match w, s with
  | [], _ => true
  | c :: w', d :: s' => Ascii.eqb (fold_case c) (fold_case d) && reads_at s' w'
  | _ :: _, [] => false
  end.

Definition matches_at (s : list ascii) (i : nat) (w : string) : bool :=
  let w' := list_ascii_of_string w in
  boundary s i && reads_at (skipn i s) w' && boundary s (i + length w').

(** [/\b(alts)\b/i.test(input)] *)
Definition word_regex_test (alts : list string) (input : string) : bool :=
  let s := list_ascii_of_string input in
  existsb (fun i => existsb (matches_at s i) alts) (seq 0 (S (length s))).

(** The alternatives of [isHistoryQuestion] (line 149). *)
Definition history_words : list string :=
  ["history"; "historical"; "when"; "where"; "who"; "date"; "year"; "century";
   "war"; "empire"; "civilization"; "ancient"; "medieval"; "renaissance";
   "revolution"; "battle"; "king"; "queen"; "president"; "capital"; "country";
   "nation"].

(** The alternatives of [isMathQuestion] (line 150); [\+], [\-], [\*] and
    [\/] are the characters themselves. *)
Definition math_words : list string :=
  ["solve"; "calculate"; "equation"; "math"; "algebra"; "geometry";
   "trigonometry"; "calculus"; "+"; "-"; "*"; "/"; "="; "x"; "y"; "formula";
   "theorem"; "proof"; "derivative"; "integral"; "matrix"; "vector"].

Definition isHistoryQuestion (input : string) : bool := word_regex_test history_words input.
Definition isMathQuestion (input : string) : bool := word_regex_test math_words input.

End Triage.

(** ** [class OpenAIAgentsSDK] (src/unnamed/part_002, lines 6-291) *)
Module OpenAIAgentsSDK.

Record SDK : Type := mkSDK {
  useFallback : bool;
  customAgents : list (string * OAgent);
  tick : nat
}.

#[export] Instance SDK_ticks : Ticks SDK := {
  tick_of := tick;
  with_tick := fun s n => mkSDK (useFallback s) (customAgents s) n
}.

(** [new OpenAIAgentsSDK()]: [useFallback = false], no custom agent. *)
Definition initial : SDK := mkSDK false [] 0.

Definition set_useFallback (s : SDK) (b : bool) : SDK :=
  mkSDK b (customAgents s) (tick s).

(** [initializeDefaultAgents()], lines 39-67. *)
Definition historyTutorAgent : OAgent :=
  mkOAgent "History Tutor" "You provide assistance with historical queries. Explain important events and context clearly. You have access to a wealth of historical knowledge and can provide interesting historical facts." None [].
Definition mathTutorAgent : OAgent :=
  mkOAgent "Math Tutor" "You provide help with math problems. Explain your reasoning at each step and include examples. You can perform calculations and help solve mathematical problems." None [].
Definition triageAgent : OAgent :=
  mkOAgent "Triage Agent" "You determine which agent to use based on the user's question. Route history questions to the History Tutor and math questions to the Math Tutor. For general questions, provide a direct response." None [historyTutorAgent; mathTutorAgent].

(** [this.agents.get(agentType)] *)
Definition agents_get (agentType : string) : option OAgent :=
  if String.eqb agentType "history" then Some historyTutorAgent
  else if String.eqb agentType "math" then Some mathTutorAgent
  else if String.eqb agentType "triage" then Some triageAgent
  else None.

Fixpoint split_dash (s : string) : list string :=
  match s with
  | EmptyString => [EmptyString]
  | String c s' =>
      if Ascii.eqb c "-" then EmptyString :: split_dash s'
      else match split_dash s' with
           | w :: ws => String c w :: ws
           | [] => [String c EmptyString]
           end
  end.

Definition is_js_space (c : ascii) : bool :=
  existsb (Nat.eqb (nat_of_ascii c)) [9; 10; 11; 12; 13; 32; 160]%nat.

Fixpoint digits_value (base : Z) (digit : ascii -> option Z) (s : string) (acc : option Z)
  : option Z :=
  match s with
  | EmptyString => acc
  | String c s' =>
      match digit c with
      | Some d => digits_value base digit s'
                    (Some (Z.add (Z.mul base (match acc with Some a => a | None => 0%Z end)) d))
      | None => acc
      end
  end.

Definition dec_digit (c : ascii) : option Z :=
  let n := nat_of_ascii c in
  if Nat.leb 48 n && Nat.leb n 57 then Some (Z.of_nat (n - 48)) else None.

Definition hex_digit (c : ascii) : option Z :=
  let n := nat_of_ascii c in
  if Nat.leb 48 n && Nat.leb n 57 then Some (Z.of_nat (n - 48))
  else if Nat.leb 97 n && Nat.leb n 102 then Some (Z.of_nat (n - 87))
  else if Nat.leb 65 n && Nat.leb n 70 then Some (Z.of_nat (n - 55))
  else None.

Fixpoint trim_start (s : string) : string :=
  match s with
  | String c s' => if is_js_space c then trim_start s' else s
  | EmptyString => EmptyString
  end.

(** [parseInt(s)]; [None] is [NaN]. *)
Definition parseInt (s : string) : option Z :=
  let s := trim_start s in
  let '(sign, s) := match s with
                    | String "-" s' => ((-1)%Z, s')
                    | String "+" s' => (1%Z, s')
                    | _ => (1%Z, s)
                    end in
  let value := match s with
               | String "0" (String x s') =>
                   if Ascii.eqb x "x" || Ascii.eqb x "X"
                   then digits_value 16 hex_digit s' None
                   else digits_value 10 dec_digit s None
               | _ => digits_value 10 dec_digit s None
               end in
  option_map (Z.mul sign) value.

(** [customAgentsList[customIndex]] *)
Definition custom_at (l : list (string * OAgent)) (i : option Z) : option OAgent :=
  match i with
  | Some z => if Z.leb 0 z then option_map snd (nth_error l (Z.to_nat z)) else None
  | None => None
  end.

(** The [agentName] and [systemPrompt] pairs of [runFallbackAgent]. *)
Definition history_persona : string * string :=
  ("History Tutor",
   "You are an expert History Tutor. Provide detailed, accurate information about historical events, dates, people, and context. Explain things clearly and include interesting historical facts when relevant.").
Definition math_persona : string * string :=
  ("Math Tutor",
   "You are an expert Math Tutor. Help solve math problems step by step. Show your work clearly, explain your reasoning, and provide examples when helpful. You can handle algebra, geometry, calculus, and other mathematical topics.").
Definition history_via_triage : string * string :=
  ("History Tutor (via Triage)",
   "You are a History Tutor. The Triage Agent has routed this history question to you. Provide detailed, accurate information about historical events, dates, people, and context.").
Definition math_via_triage : string * string :=
  ("Math Tutor (via Triage)",
   "You are a Math Tutor. The Triage Agent has routed this math question to you. Help solve the problem step by step, show your work clearly, and explain your reasoning.").
Definition general_via_triage : string * string :=
  ("General Assistant (via Triage)",
   "You are a helpful general assistant. The Triage Agent determined this question doesn't clearly fit history or math categories, so provide a helpful general response. If the question seems to relate to history or math, mention that and provide appropriate guidance.").
Definition custom_persona : string * string :=
  ("Custom Agent",
   "You are a helpful AI assistant. Provide accurate, detailed responses to user questions.").

Section Methods.
Variable env : Env.
Local Abbreviation str := (js_to_string env).

Definition getm (v : jsval) (p : string) : M SDK jsval := lift (getp v (PName p)).

(** [config] of config/openai.js. *)
Definition config_model : jsval := js_or (proc_DEFAULT_MODEL env) (JStr "gpt-3.5-turbo").
Definition config_temperature : jsval :=
  match proc_TEMPERATURE env with
  | Some q => js_or (JNum q) (JNum (7 # 10))
  | None => JNum (7 # 10)
  end.
Definition config_max_tokens : jsval :=
  match proc_MAX_TOKENS env with
  | Some q => js_or (JNum q) (JNum 1000)
  | None => JNum 1000
  end.

(** [ResponsesAPI.chat(options)], src/unnamed/part_004, lines 14-48. *)
Definition chat (options : obj) : M SDK jsval :=
  let message := obj_get options "message" in
  let model := dflt (obj_get options "model") config_model in
  let temperature := dflt (obj_get options "temperature") config_temperature in
  let max_tokens := dflt (obj_get options "max_tokens") config_max_tokens in
  let systemPrompt := dflt (obj_get options "systemPrompt")
                           (JStr "You are a helpful AI assistant.") in
  let messages := [("system", systemPrompt); ("user", message)] in
  try_catch
    (response <- createChatCompletion env messages
                   (JObj [("model", model); ("temperature", temperature);
                          ("max_tokens", max_tokens)]) ;;
     content <- lift (completion_content response) ;;
     usage <- getm response "usage" ;;
     rmodel <- getm response "model" ;;
     created <- new_date_iso env ;;
     ret (JObj [("success", JBool true); ("response", content); ("usage", usage);
                ("model", rmodel); ("created", JStr created)]))
    (fun e => created <- new_date_iso env ;;
              ret (JObj [("success", JBool false); ("error", JStr e);
                         ("created", JStr created)])).

(** The [switch (agentType)] of [runFallbackAgent], lines 135-168: the
    [agentName] and the [systemPrompt] it picks. *)
Definition fallback_persona (agentType input : jsval) : string * string :=
  match agentType with
  | JStr "history" => history_persona
  | JStr "math" => math_persona
  | JStr "triage" =>
      let isHistoryQuestion := Triage.isHistoryQuestion (str input) in
      let isMathQuestion := Triage.isMathQuestion (str input) in
      if isHistoryQuestion && negb isMathQuestion then history_via_triage
      else if isMathQuestion && negb isHistoryQuestion then math_via_triage
      else general_via_triage
  | _ => custom_persona
  end.

Definition is_triage (agentType : jsval) : bool :=
  match agentType with JStr "triage" => true | _ => false end.

(** [runFallbackAgent(agentType, input)], lines 127-200. *)
Definition runFallbackAgent (agentType input : jsval) : M SDK jsval :=
  try_catch
    (let persona := fallback_persona agentType input in
     let agentName := fst persona in
     response <- chat [("message", input); ("systemPrompt", JStr (snd persona));
                       ("model", config_model); ("temperature", config_temperature);
                       ("max_tokens", config_max_tokens)] ;;
     ok <- getm response "success" ;;
     text <- (if truthy ok then getm response "response" else ret ok) ;;
     if truthy text then
       output <- getm response "response" ;;
       ret (JObj [("success", JBool true); ("output", output);
                  ("finalAgent", JStr agentName);
                  ("handoffs", JArr (if is_triage agentType then [JStr agentName] else []));
                  ("toolsUsed", JArr [])])
     else throw "Failed to get response from fallback implementation")
    (fun e => ret (JObj [("success", JBool false);
                         ("error", JStr ("Fallback agent failed: " ++ e))])).

(** The agent the primary path of [runAgent] resolves, lines 77-96. *)
Definition resolve_agent (agentType : jsval) : M SDK OAgent :=
  match agentType with
  | JStr s =>
      if String.prefix "custom-" s then
        customs <- gets customAgents ;;
        match custom_at customs (parseInt (nth 1 (split_dash s) EmptyString)) with
        | Some a => ret a
        | None => throw "Custom agent not found"
        end
      else
        match agents_get s with
        | Some a => ret a
        | None => throw ("Agent type '" ++ s ++ "' not found")
        end
  | JUndef => throw "Cannot read properties of undefined (reading 'startsWith')"
  | JNull => throw "Cannot read properties of null (reading 'startsWith')"
  | _ => throw "agentType.startsWith is not a function"
  end.

(** The primary path of [runAgent]: the official SDK's [run]. *)
Definition runPrimary (agentType input : jsval) : M SDK jsval :=
  agent <- resolve_agent agentType ;;
  result <- ext (fun n => agents_run env n agent input) ;;
  logged <- getm result "finalAgent" ;;
  output <- getm result "finalOutput" ;;
  finalAgent <- getm result "finalAgent" ;;
  handoffs <- getm result "handoffs" ;;
  toolsUsed <- getm result "toolsUsed" ;;
  ret (JObj [("success", JBool true); ("output", output); ("finalAgent", finalAgent);
             ("handoffs", js_or handoffs (JArr [])); ("toolsUsed", js_or toolsUsed (JArr []))]).

(** [runAgent(agentType, input)], lines 70-124. *)
Definition runAgent (agentType input : jsval) : M SDK jsval :=
  try_catch
    (fallback <- gets useFallback ;;
     if fallback then runFallbackAgent agentType input
     else runPrimary agentType input)
    (fun _ => modify (fun s => set_useFallback s true) ;;;
              runFallbackAgent agentType input).

(** [createCustomAgent(name, instructions, model)], lines 203-233. *)
Definition createCustomAgent (name instructions model : string) : M SDK jsval :=
  ms <- ext (fun n => Ok (now_ms env n)) ;;
  let agentId := "custom-" ++ str (JNum (inject_Z ms)) in
  let agent := mkOAgent name instructions (Some model) [] in
  modify (fun s => mkSDK (useFallback s)
                         (AgentSDK.map_set agentId agent (customAgents s)) (tick s)) ;;;
  ret (JObj [("success", JBool true);
             ("agent", JObj [("id", JStr agentId); ("name", JStr name);
                             ("instructions", JStr instructions); ("model", JStr model)])]).

(** [getAvailableAgents()], lines 236-250. *)
Definition getAvailableAgents : M SDK jsval :=
  gets (fun s =>
    JArr (map (fun kv => JObj [("id", JStr (fst kv)); ("name", JStr (oagent_name (snd kv)));
                               ("type", JStr "predefined")])
              [("history", historyTutorAgent); ("math", mathTutorAgent);
               ("triage", triageAgent)]
          ++ map (fun kv => JObj [("id", JStr (fst kv)); ("name", JStr (oagent_name (snd kv)));
                                  ("type", JStr "custom")]) (customAgents s))%list).
End Methods.

Inductive op : Type :=
| OpRun (agentType input : jsval)
| OpCreateCustom (name instructions model : string)
| OpList.

Definition run_op (env : Env) (o : op) : M SDK jsval :=
  match o with
  | OpRun t i => runAgent env t i
  | OpCreateCustom n i m => createCustomAgent env n i m
  | OpList => getAvailableAgents
  end.

Fixpoint run_ops (env : Env) (os : list op) (s : SDK) : SDK :=
  match os with
  | [] => s
  | o :: os' => run_ops env os' (snd (run_op env o s))
  end.

End OpenAIAgentsSDK.

(** ** The request builders of src/src/config/openai.js *)
Module OpenAIConfig.

Definition availableModels : list string :=
  ["gpt-4"; "gpt-4-turbo"; "gpt-4-turbo-preview"; "gpt-3.5-turbo";
   "gpt-3.5-turbo-16k"].

(** [a ?? b] *)
Definition js_nullish (a b : jsval) : jsval :=
  match a with JUndef | JNull => b | _ => a end.

(** The own enumerable properties that [{ ...v }] copies, in order;
    [null] and [undefined] copy none. *)
Definition spread_entries (v : jsval) : obj :=
  match AgentSDK.object_entries v with Ok fs => fs | Throw _ => [] end.

Section Requests.
Variable env : Env.

(** [getModel(requestedModel)], lines 38-53; [config] is the object of
    lines 31-35. *)
Definition getModel (requestedModel : jsval) : jsval :=
  if truthy requestedModel
     && existsb (fun m => AgentSDK.same_value_zero requestedModel (JStr m))
                availableModels
  then requestedModel
  else OpenAIAgentsSDK.config_model env.

(** The object literal [createChatCompletion(messages, options = {})]
    passes to [openai.chat.completions.create], lines 61-67; a [Throw] is
    the [TypeError] its evaluation raises inside the [try]. *)
Definition chat_completion_request (messages options : jsval) : res jsval :=
  let options := dflt options (JObj []) in
  match getp options (PName "model") with
  | Throw e => Throw e
  | Ok model =>
      match getp options (PName "temperature") with
      | Throw e => Throw e
      | Ok temperature =>
          match getp options (PName "max_tokens") with
          | Throw e => Throw e
          | Ok max_tokens =>
              Ok (JObj (fold_left (fun o kv => obj_set o (fst kv) (snd kv))
                          (spread_entries options)
                          [("model", getModel model); ("messages", messages);
                           ("temperature",
                              js_nullish temperature (OpenAIAgentsSDK.config_temperature env));
                           ("max_tokens",
                              js_nullish max_tokens (OpenAIAgentsSDK.config_max_tokens env))]))
          end
      end
  end.

End Requests.

End OpenAIConfig.

(** ** [class TextToImageAgent] (src/unnamed/part_002, lines 293-484)

    A string is a sequence of Latin-1 characters, as elsewhere in this
    development. *)
Module TextToImageAgent.

Definition prohibitedTerms : list string :=
  ["nsfw"; "nude"; "naked"; "sexual"; "violence"; "blood"; "gore"].

(** [String.prototype.toLowerCase] on one Latin-1 character. *)
Definition to_lower_char (c : ascii) : ascii :=
  let n := nat_of_ascii c in
  if (Nat.leb 65 n && Nat.leb n 90)
     || (Nat.leb 192 n && Nat.leb n 222 && negb (Nat.eqb n 215))
  then ascii_of_nat (n + 32) else c.

Definition toLowerCase (s : string) : string :=
  string_of_list_ascii (map to_lower_char (list_ascii_of_string s)).

Fixpoint drop_spaces (l : list ascii) : list ascii :=
  match l with
  | c :: l' => if OpenAIAgentsSDK.is_js_space c then drop_spaces l' else l
  | [] => []
  end.

(** [String.prototype.trim] *)
Definition trim (s : string) : string :=
  string_of_list_ascii
    (rev (drop_spaces (rev (drop_spaces (list_ascii_of_string s))))).

(** [h.includes(n)] *)
Fixpoint includes (h n : string) : bool :=
  String.prefix n h
  || match h with EmptyString => false | String _ h' => includes h' n end.

Definition invalid (e : string) : jsval :=
  JObj [("valid", JBool false); ("error", JStr e)].

(** [validatePrompt(prompt)], lines 438-466. *)
Definition validatePrompt (prompt : jsval) : jsval :=
  match prompt with
  | JStr s =>
      if String.eqb s "" then invalid "Prompt is required and must be a string"
      else if Nat.eqb (String.length (trim s)) 0 then invalid "Prompt cannot be empty"
      else if Nat.ltb 4000 (String.length s)
      then invalid "Prompt too long. Maximum length is 4000 characters."
      else match find (fun t => includes (toLowerCase s) t) prohibitedTerms with
           | Some t =>
               invalid ("Prompt contains potentially prohibited content: "
                          ++ quoted t ++ ". Please use appropriate content.")
           | None => JObj [("valid", JBool true)]
           end
  | _ => invalid "Prompt is required and must be a string"
  end.

(** What the two generating methods resolve to: the object a [return] of
    the [try] block builds, or the [catch] block's
    [{ success: false, error, details }], whose [error] is given and whose
    [details] is the caught [Error] (neither an engine [TypeError] nor the
    client's [APIError] has a [response] property). *)
Inductive outcome : Type :=
| Returned (o : obj)
| Caught (error : string).

(** The instance's only state is the number of client calls made. *)
#[export] Instance nat_ticks : Ticks nat := {
  tick_of := fun n => n;
  with_tick := fun _ n => n
}.

(** [const { p = .. } = options] reading [p]. *)
Definition destructure_options (options : jsval) (p : string) : res jsval :=
  match options with
  | JUndef => Throw ("Cannot destructure property '" ++ p ++ "' of 'options' as it is undefined.")
  | JNull => Throw ("Cannot destructure property '" ++ p ++ "' of 'options' as it is null.")
  | _ => getp options (PName p)
  end.

Section Methods.
Variable env : Env.
(** [this.openai.images.generate(params)] at a tick. *)
Variable images_generate : nat -> jsval -> res jsval.

(** [image => ({ url: image.url, revised_prompt: image.revised_prompt || prompt })] *)
Definition image_entry (prompt image : jsval) : res jsval :=
  match getp image (PName "url") with
  | Throw e => Throw e
  | Ok url =>
      match getp image (PName "revised_prompt") with
      | Throw e => Throw e
      | Ok rp => Ok (JObj [("url", url); ("revised_prompt", js_or rp prompt)])
      end
  end.

Fixpoint image_entries (prompt : jsval) (xs : list jsval) : res (list jsval) :=
  match xs with
  | [] => Ok []
  | x :: xs' =>
      match image_entry prompt x with
      | Throw e => Throw e
      | Ok y => match image_entries prompt xs' with
                | Throw e => Throw e
                | Ok ys => Ok (y :: ys)
                end
      end
  end.

(** [response.data.map(..)], given [response.data]. *)
Definition map_images (prompt data : jsval) : res (list jsval) :=
  match data with
  | JArr xs => image_entries prompt xs
  | JUndef => Throw "Cannot read properties of undefined (reading 'map')"
  | JNull => Throw "Cannot read properties of null (reading 'map')"
  | _ => Throw "response.data.map is not a function"
  end.

(** The [requestParams] of lines 322-335. *)
Definition request_params (model prompt n size quality style : jsval) : obj :=
  let base := [("model", model); ("prompt", prompt); ("n", n); ("size", size);
               ("response_format", JStr "url")] in
  if AgentSDK.same_value_zero model (JStr "dall-e-3")
  then obj_set (obj_set (obj_set base "quality" quality) "style" style) "n" (JNum 1)
  else base.

(** [generateImage(prompt, options = {})], lines 300-357. *)
Definition generateImage (prompt options : jsval) : M nat outcome :=
  let options := dflt options (JObj []) in
  try_catch
    (m <- lift (destructure_options options "model") ;;
     sz <- lift (destructure_options options "size") ;;
     q <- lift (destructure_options options "quality") ;;
     st <- lift (destructure_options options "style") ;;
     k <- lift (destructure_options options "n") ;;
     let model := dflt m (JStr "dall-e-2") in
     let size := dflt sz (JStr "1024x1024") in
     let quality := dflt q (JStr "standard") in
     let style := dflt st (JStr "vivid") in
     let n := dflt k (JNum 1) in
     let validation := validatePrompt prompt in
     valid <- lift (getp validation (PName "valid")) ;;
     (if truthy valid then ret tt
      else err <- lift (getp validation (PName "error")) ;;
           throw (match err with JUndef => "" | _ => js_to_string env err end)) ;;;
     response <- ext (fun t => images_generate t
                                 (JObj (request_params model prompt n size quality style))) ;;
     data <- lift (getp response (PName "data")) ;;
     images <- lift (map_images prompt data) ;;
     len <- lift (getp data (PName "length")) ;;
     ret (Returned [("success", JBool true); ("images", JArr images);
                    ("model", model); ("size", size); ("quality", quality);
                    ("style", style); ("originalPrompt", prompt);
                    ("message", JStr ("Successfully generated " ++ js_to_string env len
                                      ++ " image(s) using " ++ js_to_string env model))]))
    (fun e => ret (Caught (if String.eqb e "" then "Failed to generate image" else e))).

End Methods.

End TextToImageAgent.

(** ** Concrete environments, for the witnesses and counterexamples *)

(** A JSON-less environment: numbers print as ["n"], every uuid is ["u<k>"]
    and every timestamp ["T<k>"] at tick [k]; the tools succeed. *)
Definition base_env (create : nat -> list (string * jsval) -> jsval -> res jsval)
           (run : nat -> OAgent -> jsval -> res jsval) : Env :=
  mkEnv (fun _ => "n") (fun _ _ => "{}") (fun _ => None)
        (fun n => "u" ++ dec_string n) (fun n => "T" ++ dec_string n)
        (fun n => Z.of_nat n) true create
        (fun _ q _ => Ok (JObj [("success", JBool true); ("query", q)]))
        (fun _ f _ => Ok (JObj [("success", JBool true); ("filePath", f)]))
        (fun _ c => Ok (JObj [("success", JBool true); ("task", c)]))
        run JUndef None None.

(** A completion response [{ choices: [{ message: { content } }] }]. *)
Definition completion_with (content : string) : jsval :=
  JObj [("choices", JArr [JObj [("message", JObj [("content", JStr content)])]])].

(** The OpenAI service is down: every completion call is rejected. *)
Definition env_down : Env :=
  base_env (fun _ _ _ => Throw "503 Service Unavailable")
           (fun _ _ _ => Throw "503 Service Unavailable").

(** Every completion answers with prose that is no JSON. *)
Definition env_prose : Env :=
  base_env (fun _ _ _ => Ok (completion_with "Sure, here is what I would do."))
           (fun _ _ _ => Throw "503 Service Unavailable").

(** Every completion answers with an empty text. *)
Definition env_empty : Env :=
  base_env (fun _ _ _ => Ok (completion_with ""))
           (fun _ _ _ => Throw "503 Service Unavailable").

(** The official SDK's [run] answers; the completion service is down. *)
Definition env_agents_up : Env :=
  base_env (fun _ _ _ => Throw "503 Service Unavailable")
           (fun _ a _ => Ok (JObj [("finalOutput", JStr "done");
                                   ("finalAgent", JStr (oagent_name a))])).

(** [env_down] with a clock: [Date.now()] is [5 + k] at tick [k], and an
    integer prints as its decimal spelling. *)
Definition int_to_string (q : Q) : string :=
  if Pos.eqb (Qden q) 1 then
    if Z.leb 0 (Qnum q) then dec_string (Z.to_nat (Qnum q))
    else "-" ++ dec_string (Z.to_nat (Z.opp (Qnum q)))
  else "n".

Definition env_clock : Env :=
  mkEnv int_to_string (json_stringify env_down) (json_parse env_down)
        (uuidv4 env_down) (iso_now env_down) (fun n => Z.of_nat (5 + n))
        (openai_ready env_down) (openai_create env_down) (web_search env_down)
        (file_search env_down) (computer_use env_down) (agents_run env_down)
        (proc_DEFAULT_MODEL env_down) (proc_TEMPERATURE env_down)
        (proc_MAX_TOKENS env_down).

(** [new AgentSDK()] after [createAgent({ name: 'Helper', tools })]: one agent,
    with id ["u0"]. *)
Definition sdk_with_helper (env : Env) (tools : jsval) : AgentSDK.SDK :=
  snd (AgentSDK.createAgent env (JObj [("name", JStr "Helper"); ("tools", tools)])
                            AgentSDK.initial).

(** ** Vocabulary of the statements *)

(** Running [m] keeps a property [Q] of [this.agents]. *)
Definition pres (Q : list (string * obj) -> Prop) {A} (m : M AgentSDK.SDK A) : Prop :=
  forall s, Q (AgentSDK.agents s) -> Q (AgentSDK.agents (snd (m s))).

(** The value an [Object.entries] list supplies last for a key. *)
Fixpoint last_value (k : string) (es : list (string * jsval)) : option jsval :=
  match es with
  | [] => None
  | (k', v) :: es' =>
      match last_value k es' with
      | Some w => Some w
      | None => if String.eqb k k' then Some v else None
      end
  end.

(** Every stored agent's [conversations] list is empty. *)
Definition no_conversations (l : list (string * obj)) : Prop :=
  Forall (fun ka => obj_get (snd ka) "conversations" = JArr []) l.

(** Every completion call throws: the client is missing, or the service
    rejects every request. *)
Definition completions_throw (env : Env) : Prop :=
  openai_ready env = false \/
  forall n ms o, exists m, openai_create env n ms o = Throw m.

(** [m] returns normally from every state, with a value satisfying [P]. *)
Definition ok_post {S A} (m : M S A) (P : A -> Prop) : Prop :=
  forall s, exists a s', m s = (Ok a, s') /\ P a.

(** [m] throws from every state. *)
Definition throws {S A} (m : M S A) : Prop :=
  forall s, exists e s', m s = (Throw e, s').

(** Running [m] leaves the [useFallback] flag of [OpenAIAgentsSDK] as it was. *)
Definition keeps_flag {A} (m : M OpenAIAgentsSDK.SDK A) : Prop :=
  forall s, OpenAIAgentsSDK.useFallback (snd (m s)) = OpenAIAgentsSDK.useFallback s.

(** Whenever [m] returns normally, its value satisfies [P]. *)
Definition returns_in {S A} (m : M S A) (P : A -> Prop) : Prop :=
  forall s a s', m s = (Ok a, s') -> P a.

(** A value one of the three tool methods returned. *)
Definition tool_value (env : Env) (r : jsval) : Prop :=
  (exists n q m, web_search env n q m = Ok r) \/
  (exists n f q, file_search env n f q = Ok r) \/
  (exists n c, computer_use env n c = Ok r).

(** The key [k] of the request [createChatCompletion] sends when [options]
    supplies no value for it. *)
Definition request_default (env : Env) (messages : jsval) (k : string) : jsval :=
  if String.eqb k "model" then OpenAIAgentsSDK.config_model env
  else if String.eqb k "messages" then messages
  else if String.eqb k "temperature" then OpenAIAgentsSDK.config_temperature env
  else if String.eqb k "max_tokens" then OpenAIAgentsSDK.config_max_tokens env
  else JUndef.

(** Running [m] from any state [s] ends in a state related to [s] by [R]. *)
Definition leads (R : AgentSDK.SDK -> AgentSDK.SDK -> Prop) {A} (m : M AgentSDK.SDK A) : Prop :=
  forall s, R s (snd (m s)).

(** A preorder on the instance states that a call of a collaborator keeps. *)
Class StoreOrder (R : AgentSDK.SDK -> AgentSDK.SDK -> Prop) : Prop := {
  so_refl : forall s, R s s;
  so_trans : forall s1 s2 s3, R s1 s2 -> R s2 s3 -> R s1 s3;
  so_tick : forall s n, R s (AgentSDK.mkSDK (AgentSDK.agents s) (AgentSDK.conversations s) n)
}.

(** The state [s'] holds the agents and the conversations of [s]. *)
Definition same_store (s s' : AgentSDK.SDK) : Prop :=
  AgentSDK.agents s' = AgentSDK.agents s /\
  AgentSDK.conversations s' = AgentSDK.conversations s.

(** [c'] is the conversation [c] with messages appended. *)
Definition conv_extends (c c' : AgentSDK.Conversation) : Prop :=
  AgentSDK.conv_id c' = AgentSDK.conv_id c /\
  AgentSDK.conv_agentId c' = AgentSDK.conv_agentId c /\
  AgentSDK.conv_created c' = AgentSDK.conv_created c /\
  exists more, AgentSDK.conv_messages c' = (AgentSDK.conv_messages c ++ more)%list.

(** The conversations map [l'] grows [l]: each entry of [l] is still in its
    place under its key, its conversation extended, and new entries follow. *)
Definition convs_grow (l l' : list (jsval * AgentSDK.Conversation)) : Prop :=
  exists l0 extra, l' = (l0 ++ extra)%list /\
    Forall2 (fun kc kc' => fst kc' = fst kc /\ conv_extends (snd kc) (snd kc')) l l0.

Definition conv_grows (s s' : AgentSDK.SDK) : Prop :=
  convs_grow (AgentSDK.conversations s) (AgentSDK.conversations s').

(** Each stored agent's [id] is its key, and the keys are distinct. *)
Definition ids_ok (l : list (string * obj)) : Prop :=
  NoDup (map fst l) /\ Forall (fun ka => obj_get (snd ka) "id" = JStr (fst ka)) l.

(** Every character of [s] satisfies [p]. *)
Fixpoint all_chars (p : ascii -> bool) (s : string) : bool :=
  match s with
  | EmptyString => true
  | String c s' => p c && all_chars p s'
  end.

Definition is_dec_digit (c : ascii) : bool :=
  match OpenAIAgentsSDK.dec_digit c with Some _ => true | None => false end.

(** * Theorems *)

(** ** Triage routing of the fallback *)

(** C4: in the triage branch of the Routing Fallback, "What year did World
    War II end?" matches the history pattern only and routes to the history
    specialist; "Solve for x: 2x + 4 = 10" matches the math pattern only and
    routes to the math specialist; "Tell me a joke" matches neither and routes
    to the generic assistant; an input matching both patterns also routes to
    the generic assistant. *)
Theorem triage_routing_table : forall env : Env,
  let q1 := "What year did World War II end?" in
  let q2 := "Solve for x: 2x + 4 = 10" in
  let q3 := "Tell me a joke" in
  (Triage.isHistoryQuestion q1 = true /\ Triage.isMathQuestion q1 = false /\
   OpenAIAgentsSDK.fallback_persona env (JStr "triage") (JStr q1)
     = OpenAIAgentsSDK.history_via_triage) /\
  (Triage.isMathQuestion q2 = true /\ Triage.isHistoryQuestion q2 = false /\
   OpenAIAgentsSDK.fallback_persona env (JStr "triage") (JStr q2)
     = OpenAIAgentsSDK.math_via_triage) /\
  (Triage.isHistoryQuestion q3 = false /\ Triage.isMathQuestion q3 = false /\
   OpenAIAgentsSDK.fallback_persona env (JStr "triage") (JStr q3)
     = OpenAIAgentsSDK.general_via_triage) /\
  (forall input : string,
     Triage.isHistoryQuestion input = true -> Triage.isMathQuestion input = true ->
     OpenAIAgentsSDK.fallback_persona env (JStr "triage") (JStr input)
       = OpenAIAgentsSDK.general_via_triage).
Proof.
  intros env q1 q2 q3.
  split; [|split; [|split]].
  - vm_compute. auto.
  - vm_compute. auto.
  - vm_compute. auto.
  - intros input Hh Hm. cbn [OpenAIAgentsSDK.fallback_persona js_to_string].
    rewrite Hh, Hm. reflexivity.
Qed.

Lemma triage_routing_table_witness :
  Triage.isHistoryQuestion "Which year did the war end, x?" = true /\
  Triage.isMathQuestion "Which year did the war end, x?" = true /\
  OpenAIAgentsSDK.fallback_persona env_down (JStr "triage")
    (JStr "Which year did the war end, x?") = OpenAIAgentsSDK.general_via_triage.
Proof.
  split; [vm_compute; reflexivity|split; [vm_compute; reflexivity|]].
  apply (proj2 (proj2 (proj2 (triage_routing_table env_down))));
    vm_compute; reflexivity.
Defined.

(** ** The Routing Fallback's result on an empty completion *)

Lemma completion_content_not_nullish : forall v c,
  completion_content v = Ok c -> v <> JUndef /\ v <> JNull.
Proof. intros [] c H; try discriminate; split; discriminate. Qed.

(** C10: when the fallback's completion call succeeds but its response text
    is the empty string, [runFallbackAgent] reports
    [{ success: false, error }] instead of a success with empty output. *)
Theorem fallback_empty_text_is_failure :
  forall env st agentType input resp,
    openai_ready env = true ->
    (forall ms o, openai_create env (OpenAIAgentsSDK.tick st) ms o = Ok resp) ->
    completion_content resp = Ok (JStr "") ->
    fst (OpenAIAgentsSDK.runFallbackAgent env agentType input st)
    = Ok (JObj [("success", JBool false);
                ("error", JStr "Fallback agent failed: Failed to get response from fallback implementation")]).
Proof.
  intros env st agentType input resp Hready Hcreate Hcontent.
  pose proof (completion_content_not_nullish _ _ Hcontent) as [Hu Hn].
  unfold OpenAIAgentsSDK.runFallbackAgent, OpenAIAgentsSDK.chat, createChatCompletion,
    ext, next_tick, new_date_iso, try_catch, bind, lift, ret, throw, OpenAIAgentsSDK.getm.
  rewrite Hready. cbn -[completion_content getp]. rewrite Hcreate, Hcontent.
  destruct resp; try congruence; reflexivity.
Qed.

Lemma fallback_empty_text_is_failure_witness :
  openai_ready env_empty = true /\
  (forall ms o, openai_create env_empty (OpenAIAgentsSDK.tick OpenAIAgentsSDK.initial) ms o
                = Ok (completion_with "")) /\
  completion_content (completion_with "") = Ok (JStr "") /\
  fst (OpenAIAgentsSDK.runFallbackAgent env_empty (JStr "history") (JStr "Who was Caesar?")
         OpenAIAgentsSDK.initial)
  = Ok (JObj [("success", JBool false);
              ("error", JStr "Fallback agent failed: Failed to get response from fallback implementation")]).
Proof.
  split; [reflexivity|split; [intros; reflexivity|split; [reflexivity|]]].
  apply (fallback_empty_text_is_failure _ _ _ _ (completion_with ""));
    [reflexivity|intros; reflexivity|reflexivity].
Defined.

(** ** Unknown agent ids *)

(** C5: [executeAgent] on an agent id that is not in the registry returns
    [{ success: false, error: 'Agent not found', agentId, task }] and leaves
    the whole instance unchanged: no conversation is created and no turn is
    appended to any conversation. *)
Theorem executeAgent_unknown_agent : forall env st agentId task context,
  AgentSDK.map_get agentId (AgentSDK.agents st) = None ->
  AgentSDK.executeAgent env agentId task context st
  = (Ok (JObj [("success", JBool false); ("error", JStr "Agent not found");
               ("agentId", JStr agentId); ("task", task)]), st).
Proof.
  intros env st agentId task context Hnone.
  unfold AgentSDK.executeAgent, AgentSDK.find_agent, try_catch, bind.
  rewrite Hnone. reflexivity.
Qed.

Lemma executeAgent_unknown_agent_witness :
  let st := sdk_with_helper env_down (JArr []) in
  AgentSDK.map_get "no-such-agent" (AgentSDK.agents st) = None /\
  AgentSDK.executeAgent env_down "no-such-agent" (JStr "Plan a trip")
    (JObj [("conversationId", JStr "c1")]) st
  = (Ok (JObj [("success", JBool false); ("error", JStr "Agent not found");
               ("agentId", JStr "no-such-agent"); ("task", JStr "Plan a trip")]), st).
Proof.
  intro st. split; [vm_compute; reflexivity|].
  apply executeAgent_unknown_agent. vm_compute. reflexivity.
Defined.

(** ** Which methods leave the agent registry alone

    [pres Q m] (defined above): running [m] keeps a property [Q] of
    [this.agents]. *)
Section AgentsFrame.
Import AgentSDK.
Variable Q : list (string * obj) -> Prop.

Lemma pres_ret : forall A (a : A), pres Q (ret a).
Proof. intros A a s H. exact H. Qed.

Lemma pres_throw : forall A e, pres Q (@throw SDK A e).
Proof. intros A e s H. exact H. Qed.

Lemma pres_lift : forall A (r : res A), pres Q (lift r).
Proof. intros A r s H. exact H. Qed.

Lemma pres_gets : forall A (f : SDK -> A), pres Q (gets f).
Proof. intros A f s H. exact H. Qed.

Lemma pres_bind : forall A B (m : M SDK A) (k : A -> M SDK B),
  pres Q m -> (forall a, pres Q (k a)) -> pres Q (bind m k).
Proof.
  intros A B m k Hm Hk s H. unfold bind.
  specialize (Hm s H). destruct (m s) as [[a|e] s'] eqn:E; cbn in *.
  - apply (Hk a). exact Hm.
  - exact Hm.
Qed.

Lemma pres_try_catch : forall A (m : M SDK A) h,
  pres Q m -> (forall e, pres Q (h e)) -> pres Q (try_catch m h).
Proof.
  intros A m h Hm Hh s H. unfold try_catch.
  specialize (Hm s H). destruct (m s) as [[a|e] s'] eqn:E; cbn in *.
  - exact Hm.
  - apply Hh. exact Hm.
Qed.

Lemma pres_next_tick : pres Q next_tick.
Proof. intros s H. exact H. Qed.

Lemma pres_ext : forall A (f : nat -> res A), pres Q (ext f).
Proof. intros A f. apply pres_bind; [apply pres_next_tick|intros; apply pres_lift]. Qed.

Lemma pres_new_date_iso : forall env, pres Q (new_date_iso env).
Proof. intros; apply pres_ext. Qed.

Lemma pres_uuid : forall env, pres Q (uuid env).
Proof. intros; apply pres_ext. Qed.

Lemma pres_createChatCompletion : forall env ms o, pres Q (createChatCompletion env ms o).
Proof.
  intros env ms o. unfold createChatCompletion.
  destruct (negb (openai_ready env)).
  - apply pres_throw.
  - apply pres_try_catch; [apply pres_ext|intros; apply pres_throw].
Qed.

Lemma pres_getm : forall v p, pres Q (getm v p).
Proof. intros; apply pres_lift. Qed.

Lemma pres_find_agent : forall agentId, pres Q (find_agent agentId).
Proof. intros agentId s H. unfold find_agent. destruct (map_get _ _); exact H. Qed.

Lemma pres_resolve_conversation : forall env cid agentId,
  pres Q (resolve_conversation env cid agentId).
Proof.
  intros env cid agentId s H. unfold resolve_conversation.
  destruct (conv_index _ _); [exact H|]. cbn. exact H.
Qed.

Lemma pres_get_conversation : forall i, pres Q (get_conversation i).
Proof. intros i s H. exact H. Qed.

Lemma pres_push_turn : forall i t, pres Q (push_turn i t).
Proof. intros i t s H. exact H. Qed.
End AgentsFrame.

Create HintDb frame.
#[export] Hint Resolve pres_ret pres_throw pres_lift pres_gets pres_next_tick pres_ext
  pres_new_date_iso pres_uuid pres_createChatCompletion pres_getm pres_find_agent
  pres_resolve_conversation pres_get_conversation pres_push_turn : frame.

(** Split a method into its steps and discharge each with [frame]. *)
Ltac pres_steps :=
  repeat (cbv zeta; intros;
          lazymatch goal with
          | |- pres _ (bind _ _) => apply pres_bind
          | |- pres _ (try_catch _ _) => apply pres_try_catch
          | |- pres _ (match ?x with _ => _ end) => destruct x
          | |- pres _ (if ?b then _ else _) => destruct b
          | |- pres _ _ => eauto with frame
          end).

Section PipelineFrame.
Import AgentSDK.
Variable Q : list (string * obj) -> Prop.
Variable env : Env.

Lemma pres_analyzeTask : forall agent task context,
  pres Q (analyzeTask env agent task context).
Proof. intros. unfold analyzeTask. pres_steps. Qed.

Lemma pres_createExecutionPlan : forall agent task analysis context,
  pres Q (createExecutionPlan env agent task analysis context).
Proof. intros. unfold createExecutionPlan. pres_steps. Qed.

Lemma pres_executeTool : forall toolName context,
  pres Q (executeTool env toolName context).
Proof. intros. unfold executeTool. pres_steps. Qed.

Lemma pres_dispatch : forall names context, pres Q (dispatch env names context).
Proof.
  induction names as [|n names IH]; intros context; cbn.
  - apply pres_ret.
  - destruct (tools_get _).
    + apply pres_bind; [apply pres_executeTool|intros].
      apply pres_bind; [apply IH|intros; apply pres_ret].
    + apply IH.
Qed.

Lemma pres_executePlan : forall agent plan context,
  pres Q (executePlan env agent plan context).
Proof.
  intros. unfold executePlan.
  apply pres_try_catch; [|intros; apply pres_ret].
  apply pres_bind; [apply pres_getm|intros].
  apply pres_bind; [apply pres_lift|intros].
  apply pres_bind; [apply pres_dispatch|intros; apply pres_ret].
Qed.

Lemma pres_generateFinalResponse : forall agent task execution context,
  pres Q (generateFinalResponse env agent task execution context).
Proof. intros. unfold generateFinalResponse. pres_steps. Qed.

Lemma pres_processAgentTask : forall agent task conv context,
  pres Q (processAgentTask env agent task conv context).
Proof.
  intros. unfold processAgentTask.
  apply pres_try_catch; [|intros; apply pres_ret].
  apply pres_bind; [apply pres_analyzeTask|intros].
  apply pres_bind; [apply pres_createExecutionPlan|intros].
  apply pres_bind; [apply pres_executePlan|intros].
  apply pres_bind; [apply pres_generateFinalResponse|intros].
  pres_steps.
Qed.

Lemma pres_executeAgent : forall agentId task context,
  pres Q (executeAgent env agentId task context).
Proof.
  intros. unfold executeAgent.
  apply pres_try_catch; [|intros; apply pres_ret].
  apply pres_bind; [apply pres_find_agent|intros].
  apply pres_bind; [apply pres_getm|intros].
  apply pres_bind; [pres_steps|intros].
  apply pres_bind; [apply pres_resolve_conversation|intros].
  apply pres_bind; [apply pres_get_conversation|intros].
  apply pres_bind; [apply pres_processAgentTask|intros].
  pres_steps.
Qed.

Lemma pres_agentCommunication : forall f t m c,
  pres Q (agentCommunication env f t m c).
Proof.
  intros. unfold agentCommunication.
  apply pres_try_catch; [|intros; apply pres_ret].
  apply pres_bind; [apply pres_gets|intros].
  destruct (map_get f a), (map_get t a); try apply pres_throw.
  apply pres_bind; [apply pres_executeAgent|intros].
  pres_steps.
Qed.

Lemma pres_getAgent : forall agentId, pres Q (getAgent agentId).
Proof. intros; apply pres_gets. Qed.

Lemma pres_listAgents : pres Q listAgents.
Proof. intros s H. unfold listAgents. destruct (summaries _); exact H. Qed.
End PipelineFrame.

(** [executeAgent] never writes [this.agents]. *)
Lemma executeAgent_keeps_agents : forall env agentId task context s,
  AgentSDK.agents (snd (AgentSDK.executeAgent env agentId task context s))
  = AgentSDK.agents s.
Proof.
  intros env agentId task context s.
  apply (pres_executeAgent (fun a => a = AgentSDK.agents s)). reflexivity.
Qed.

(** ** Objects and maps *)

Lemma obj_get_set : forall o k v k',
  obj_get (obj_set o k v) k' = if String.eqb k' k then v else obj_get o k'.
Proof.
  induction o as [|[k0 v0] o IH]; intros k v k'; cbn.
  - destruct (String.eqb k' k); reflexivity.
  - destruct (String.eqb k k0) eqn:E; cbn.
    + apply String.eqb_eq in E. subst k0.
      destruct (String.eqb k' k); reflexivity.
    + rewrite IH. destruct (String.eqb k' k0) eqn:E'; [|reflexivity].
      apply String.eqb_eq in E'. subst k0.
      destruct (String.eqb k' k) eqn:E''; [|reflexivity].
      apply String.eqb_eq in E''. subst k. rewrite String.eqb_refl in E. discriminate.
Qed.

Lemma Forall_map_set : forall V (R : V -> Prop) k v (m : list (string * V)),
  Forall (fun kv => R (snd kv)) m -> R v ->
  Forall (fun kv => R (snd kv)) (AgentSDK.map_set k v m).
Proof.
  induction m as [|[k' v'] m IH]; intros Hm Hv; cbn.
  - constructor; [exact Hv|constructor].
  - inversion Hm; subst. destruct (String.eqb k k').
    + constructor; assumption.
    + constructor; [assumption|apply IH; assumption].
Qed.

Lemma Forall_map_delete : forall V (R : V -> Prop) k (m : list (string * V)),
  Forall (fun kv => R (snd kv)) m -> Forall (fun kv => R (snd kv)) (AgentSDK.map_delete k m).
Proof.
  induction m as [|[k' v'] m IH]; intros Hm; cbn; [constructor|].
  inversion Hm; subst. destruct (String.eqb k k'); [assumption|].
  constructor; [assumption|apply IH; assumption].
Qed.

Lemma Forall_map_get : forall V (R : V -> Prop) k v (m : list (string * V)),
  Forall (fun kv => R (snd kv)) m -> AgentSDK.map_get k m = Some v -> R v.
Proof.
  induction m as [|[k' v'] m IH]; intros Hm Hget; cbn in Hget; [discriminate|].
  inversion Hm; subst. destruct (String.eqb k k').
  - injection Hget as <-. assumption.
  - apply IH; assumption.
Qed.

(** Keys outside [allowedUpdates] are never written by the update loop. *)
Lemma apply_updates_other : forall es a k,
  ~ In k AgentSDK.allowedUpdates ->
  obj_get (AgentSDK.apply_updates a es) k = obj_get a k.
Proof.
  unfold AgentSDK.apply_updates.
  induction es as [|[k0 v0] es IH]; intros a k Hk; cbn [fold_left fst snd last_value];
    [reflexivity|].
  rewrite IH by exact Hk.
  destruct (existsb (String.eqb k0) AgentSDK.allowedUpdates) eqn:E; [|reflexivity].
  rewrite obj_get_set. destruct (String.eqb k k0) eqn:E'; [|reflexivity].
  apply String.eqb_eq in E'. subst k0.
  apply existsb_exists in E as [x [Hx Hxk]]. apply String.eqb_eq in Hxk. subst x.
  contradiction.
Qed.

(** Keys in [allowedUpdates] end with the value supplied last, if any. *)
Lemma apply_updates_allowed : forall es a k,
  In k AgentSDK.allowedUpdates ->
  obj_get (AgentSDK.apply_updates a es) k
  = match last_value k es with Some v => v | None => obj_get a k end.
Proof.
  unfold AgentSDK.apply_updates.
  induction es as [|[k0 v0] es IH]; intros a k Hk; cbn [fold_left fst snd last_value];
    [reflexivity|].
  rewrite IH by exact Hk.
  destruct (last_value k es) as [w|]; [reflexivity|].
  destruct (existsb (String.eqb k0) AgentSDK.allowedUpdates) eqn:E.
  - rewrite obj_get_set. destruct (String.eqb k k0); reflexivity.
  - destruct (String.eqb k k0) eqn:E'; [|reflexivity].
    apply String.eqb_eq in E'. subst k0.
    exfalso. assert (existsb (String.eqb k) AgentSDK.allowedUpdates = true) as T.
    { apply existsb_exists. exists k. split; [exact Hk|apply String.eqb_refl]. }
    congruence.
Qed.

(** ** The agents' [conversations] lists *)

Lemma pres_modify_agents : forall Q (f : list (string * obj) -> list (string * obj)),
  (forall l, Q l -> Q (f l)) ->
  pres Q (modify (fun s => AgentSDK.set_agents s (f (AgentSDK.agents s)))).
Proof. intros Q f Hf s H. apply Hf. exact H. Qed.

Lemma createAgent_no_conversations : forall env config,
  pres no_conversations (AgentSDK.createAgent env config).
Proof.
  intros env config. unfold AgentSDK.createAgent.
  apply pres_try_catch; [|intros; apply pres_ret].
  pres_steps.
  apply pres_modify_agents. intros l Hl.
  apply (Forall_map_set _ (fun a => obj_get a "conversations" = JArr [])); [exact Hl|reflexivity].
Qed.

Lemma updateAgent_no_conversations : forall env agentId updates,
  pres no_conversations (AgentSDK.updateAgent env agentId updates).
Proof.
  intros env agentId updates s H.
  unfold AgentSDK.updateAgent, AgentSDK.find_agent, try_catch, bind, lift.
  destruct (AgentSDK.map_get agentId (AgentSDK.agents s)) as [a|] eqn:Ea; [|exact H].
  destruct (AgentSDK.object_entries updates) as [es|e]; [|exact H].
  cbn. apply (Forall_map_set _ (fun a => obj_get a "conversations" = JArr [])); [exact H|]. cbn.
  rewrite obj_get_set. cbn.
  rewrite apply_updates_other by (cbn; intuition discriminate).
  exact (Forall_map_get _ (fun a => obj_get a "conversations" = JArr []) _ _ _ H Ea).
Qed.

Lemma deleteAgent_no_conversations : forall env agentId,
  pres no_conversations (AgentSDK.deleteAgent env agentId).
Proof.
  intros env agentId. unfold AgentSDK.deleteAgent.
  apply pres_try_catch; [|intros; apply pres_ret].
  apply pres_bind; [apply pres_find_agent|intros a].
  apply pres_bind; [|intros; apply pres_ret].
  apply pres_modify_agents. intros l Hl.
  apply (Forall_map_delete _ (fun a => obj_get a "conversations" = JArr [])). exact Hl.
Qed.

Lemma run_op_no_conversations : forall env o, pres no_conversations (AgentSDK.run_op env o).
Proof.
  intros env []; cbn.
  - apply createAgent_no_conversations.
  - apply pres_executeAgent.
  - apply updateAgent_no_conversations.
  - apply deleteAgent_no_conversations.
  - apply pres_getAgent.
  - apply pres_listAgents.
  - apply pres_agentCommunication.
Qed.

Lemma run_ops_no_conversations : forall env os s,
  no_conversations (AgentSDK.agents s) ->
  no_conversations (AgentSDK.agents (AgentSDK.run_ops env os s)).
Proof.
  induction os as [|o os IH]; intros s H; cbn; [exact H|].
  apply IH. apply run_op_no_conversations. exact H.
Qed.

Lemma summaries_no_conversations : forall l,
  no_conversations l ->
  exists xs, AgentSDK.summaries l = Ok xs /\ length xs = length l /\
    Forall (fun x => getp x (PName "conversationCount") = Ok (JNum 0)) xs.
Proof.
  induction l as [|[k a] l IH]; intros H; cbn.
  - exists []. repeat split. constructor.
  - inversion H as [|? ? Ha Hl]; subst. cbn in Ha.
    destruct (IH Hl) as [xs [Hs [Hlen Hall]]].
    unfold AgentSDK.agent_summary. rewrite Ha, Hs. cbn.
    eexists. split; [reflexivity|]. split; [cbn; congruence|].
    constructor; [reflexivity|exact Hall].
Qed.

(** C6 (amended): no operation ever appends to an agent's [conversations]
    list. From the initial state, after any sequence of operations
    (creating, running, updating, deleting, reading, listing agents and
    agent-to-agent messages), every stored agent has [conversations = []],
    an [executeAgent] run leaves [this.agents] as it was, and [listAgents]
    reports one summary per agent, each with [conversationCount] 0. *)
Theorem agent_conversations_stay_empty : forall env os,
  let s := AgentSDK.run_ops env os AgentSDK.initial in
  no_conversations (AgentSDK.agents s) /\
  (forall agentId task context,
     AgentSDK.agents (snd (AgentSDK.executeAgent env agentId task context s))
     = AgentSDK.agents s) /\
  exists l rest,
    fst (AgentSDK.listAgents s) = Ok (JObj (("agents", JArr l) :: rest)) /\
    length l = length (AgentSDK.agents s) /\
    Forall (fun x => getp x (PName "conversationCount") = Ok (JNum 0)) l.
Proof.
  intros env os s.
  assert (Hinv : no_conversations (AgentSDK.agents s)).
  { apply run_ops_no_conversations. constructor. }
  split; [exact Hinv|]. split.
  - intros. apply executeAgent_keeps_agents.
  - destruct (summaries_no_conversations _ Hinv) as [xs [Hs [Hlen Hall]]].
    exists xs. eexists. unfold AgentSDK.listAgents. rewrite Hs.
    split; [reflexivity|]. split; assumption.
Qed.

(** C6 counterexample: agent [u0] runs a task in conversation [c1]; the
    conversation is stored, but the agent's [conversations] list stays
    empty and [listAgents] reports [conversationCount] 0 for it. *)
Lemma agent_conversations_counterexample :
  let s1 := sdk_with_helper env_down (JArr []) in
  let s2 := snd (AgentSDK.executeAgent env_down "u0" (JStr "hi")
                   (JObj [("conversationId", JStr "c1")]) s1) in
  map (fun c => fst c) (AgentSDK.conversations s2) = [JStr "c1"] /\
  option_map (fun a => obj_get a "conversations") (AgentSDK.map_get "u0" (AgentSDK.agents s2))
    = Some (JArr []) /\
  (exists l rest, fst (AgentSDK.listAgents s2) = Ok (JObj (("agents", JArr l) :: rest)) /\
     map (fun x => getp x (PName "conversationCount")) l = [Ok (JNum 0)]).
Proof.
  vm_compute. split; [reflexivity|]. split; [reflexivity|].
  eexists. eexists. split; [reflexivity|reflexivity].
Qed.

Lemma map_get_set : forall V k k' (v : V) m,
  AgentSDK.map_get k (AgentSDK.map_set k' v m)
  = if String.eqb k k' then Some v else AgentSDK.map_get k m.
Proof.
  induction m as [|[k0 v0] m IH]; cbn.
  - reflexivity.
  - destruct (String.eqb k' k0) eqn:E; cbn.
    + apply String.eqb_eq in E. subst k0. destruct (String.eqb k k'); reflexivity.
    + rewrite IH. destruct (String.eqb k k0) eqn:E0; [|reflexivity].
      apply String.eqb_eq in E0. subst k0.
      destruct (String.eqb k k') eqn:E1; [|reflexivity].
      apply String.eqb_eq in E1. subst k'. rewrite String.eqb_refl in E. discriminate.
Qed.

(** C7 (amended): [updateAgent] with an id absent from [this.agents] returns
    [{success:false, error:"Agent not found"}] and changes nothing.  For a
    stored agent and updates that [Object.entries] accepts, it returns
    [{success:true, agent:{id, updated}}]; in the stored agent each key of
    [allowedUpdates] (spelled [max_tokens], not [maxTokens]) takes the last
    value supplied for it, [updated] is set to the call's timestamp whatever
    was supplied, every other key keeps its value, and the other agents are
    unchanged. *)
Theorem updateAgent_fields : forall env agentId updates s,
  (AgentSDK.map_get agentId (AgentSDK.agents s) = None ->
   AgentSDK.updateAgent env agentId updates s = (Ok (AgentSDK.jobj_error "Agent not found"), s)) /\
  (forall a es,
   AgentSDK.map_get agentId (AgentSDK.agents s) = Some a ->
   AgentSDK.object_entries updates = Ok es ->
   let ts := iso_now env (AgentSDK.tick s) in
   let s' := snd (AgentSDK.updateAgent env agentId updates s) in
   fst (AgentSDK.updateAgent env agentId updates s)
     = Ok (JObj [("success", JBool true);
                 ("agent", JObj [("id", JStr agentId); ("updated", JStr ts)])]) /\
   (exists a', AgentSDK.map_get agentId (AgentSDK.agents s') = Some a' /\
      obj_get a' "updated" = JStr ts /\
      (forall k, In k AgentSDK.allowedUpdates ->
         obj_get a' k = match last_value k es with Some v => v | None => obj_get a k end) /\
      (forall k, k <> "updated" -> ~ In k AgentSDK.allowedUpdates ->
         obj_get a' k = obj_get a k)) /\
   (forall k, k <> agentId ->
      AgentSDK.map_get k (AgentSDK.agents s') = AgentSDK.map_get k (AgentSDK.agents s))).
Proof.
  intros env agentId updates s. split.
  - intros Hnone.
    unfold AgentSDK.updateAgent, AgentSDK.find_agent, try_catch, bind.
    rewrite Hnone. reflexivity.
  - intros a es Ha Hes ts s'. subst s' ts.
    unfold AgentSDK.updateAgent, AgentSDK.find_agent, try_catch, bind, lift.
    rewrite Ha, Hes. cbn. split; [reflexivity|]. split.
    + eexists. rewrite map_get_set, String.eqb_refl. split; [reflexivity|].
      split; [rewrite obj_get_set; reflexivity|]. split.
      * intros k Hk. rewrite obj_get_set.
        destruct (String.eqb k "updated") eqn:E.
        -- apply String.eqb_eq in E. subst k. cbn in Hk. intuition discriminate.
        -- apply apply_updates_allowed. exact Hk.
      * intros k Hk Hn. rewrite obj_get_set.
        apply String.eqb_neq in Hk. rewrite Hk.
        apply apply_updates_other. exact Hn.
    + intros k Hk. rewrite map_get_set.
      apply String.eqb_neq in Hk. rewrite Hk. reflexivity.
Qed.

Definition helper_update : jsval :=
  JObj [("updated", JStr "1999"); ("id", JStr "evil");
        ("maxTokens", JNum 5); ("temperature", JNum 1)].

(** C7 witness: the unknown id [u9] and the stored agent [u0]. *)
Lemma updateAgent_fields_witness :
  let s := sdk_with_helper env_down (JArr []) in
  AgentSDK.updateAgent env_down "u9" helper_update s
    = (Ok (AgentSDK.jobj_error "Agent not found"), s) /\
  (exists a es,
     AgentSDK.map_get "u0" (AgentSDK.agents s) = Some a /\
     AgentSDK.object_entries helper_update = Ok es /\
     fst (AgentSDK.updateAgent env_down "u0" helper_update s)
       = Ok (JObj [("success", JBool true);
                   ("agent", JObj [("id", JStr "u0");
                                   ("updated", JStr (iso_now env_down (AgentSDK.tick s)))])])).
Proof.
  intros s.
  destruct (updateAgent_fields env_down "u9" helper_update s) as [Hunknown _].
  destruct (updateAgent_fields env_down "u0" helper_update s) as [_ Hknown].
  split.
  - apply Hunknown. vm_compute. reflexivity.
  - do 2 eexists. split; [reflexivity|]. split; [reflexivity|].
    refine (proj1 (Hknown _ _ _ _)); reflexivity.
Defined.

(** C7 counterexample: updating [u0] with [maxTokens:5] and
    [updated:"1999"] leaves [max_tokens] at 2000, stores no [maxTokens],
    and overwrites [updated] with the call's timestamp rather than keeping
    it unchanged. *)
Lemma updateAgent_fields_counterexample :
  let s := sdk_with_helper env_down (JArr []) in
  let s' := snd (AgentSDK.updateAgent env_down "u0" helper_update s) in
  option_map (fun a => (obj_get a "max_tokens", obj_get a "maxTokens", obj_get a "updated",
                        obj_get a "id", obj_get a "temperature"))
             (AgentSDK.map_get "u0" (AgentSDK.agents s'))
  = Some (JNum 2000, JUndef, JStr "T2", JStr "u0", JNum 1) /\
  option_map (fun a => obj_get a "updated") (AgentSDK.map_get "u0" (AgentSDK.agents s))
  = Some JUndef.
Proof. vm_compute. split; reflexivity. Qed.

(** ** Runs whose completions all fail *)

Section Returns.
Context {S : Type}.

Lemma ok_ret : forall A (a : A) (P : A -> Prop), P a -> ok_post (S := S) (ret a) P.
Proof. intros A a P Ha s. exists a, s. split; [reflexivity|exact Ha]. Qed.

Lemma ok_lift : forall A (r : res A) (P : A -> Prop),
  (exists a, r = Ok a /\ P a) -> ok_post (S := S) (lift r) P.
Proof. intros A r P [a [-> Ha]] s. exists a, s. split; [reflexivity|exact Ha]. Qed.

Lemma ok_modify : forall f, ok_post (S := S) (modify f) (fun _ => True).
Proof. intros f s. exists tt, (f s). split; [reflexivity|exact I]. Qed.

Lemma ok_bind : forall A B (m : M S A) (k : A -> M S B) P Q,
  ok_post m P -> (forall a, P a -> ok_post (k a) Q) -> ok_post (bind m k) Q.
Proof.
  intros A B m k P Q Hm Hk s. destruct (Hm s) as [a [s' [E Ha]]].
  unfold bind. rewrite E. exact (Hk a Ha s').
Qed.

Lemma ok_try_catch : forall A (m : M S A) h P,
  ok_post m P -> ok_post (try_catch m h) P.
Proof.
  intros A m h P Hm s. destruct (Hm s) as [a [s' [E Ha]]].
  unfold try_catch. rewrite E. exists a, s'. split; [reflexivity|exact Ha].
Qed.

Lemma ok_try_catch_throws : forall A (m : M S A) h P,
  throws m -> (forall e, ok_post (h e) P) -> ok_post (try_catch m h) P.
Proof.
  intros A m h P Hm Hh s. destruct (Hm s) as [e [s' E]].
  unfold try_catch. rewrite E. exact (Hh e s').
Qed.

Lemma throws_throw : forall A e, throws (S := S) (A := A) (throw e).
Proof. intros A e s. exists e, s. reflexivity. Qed.

Lemma throws_bind : forall A B (m : M S A) (k : A -> M S B),
  throws m -> throws (bind m k).
Proof.
  intros A B m k Hm s. destruct (Hm s) as [e [s' E]].
  unfold bind. rewrite E. exists e, s'. reflexivity.
Qed.

Lemma throws_bind_ok : forall A B (m : M S A) (k : A -> M S B) P,
  ok_post m P -> (forall a, P a -> throws (k a)) -> throws (bind m k).
Proof.
  intros A B m k P Hm Hk s. destruct (Hm s) as [a [s' [E Ha]]].
  unfold bind. rewrite E. exact (Hk a Ha s').
Qed.

Context `{Ticks S}.

Lemma ok_next_tick : ok_post (S := S) next_tick (fun _ => True).
Proof. intros s. eexists; eexists. split; [reflexivity|exact I]. Qed.

Lemma ok_new_date_iso : forall env, ok_post (S := S) (new_date_iso env) (fun _ => True).
Proof. intros env s. eexists; eexists. split; [reflexivity|exact I]. Qed.

Lemma ok_uuid : forall env, ok_post (S := S) (uuid env) (fun _ => True).
Proof. intros env s. eexists; eexists. split; [reflexivity|exact I]. Qed.

Lemma createChatCompletion_throws : forall env ms o,
  completions_throw env -> throws (S := S) (createChatCompletion env ms o).
Proof.
  intros env ms o [Hr|Hc]; unfold createChatCompletion.
  - rewrite Hr. apply throws_throw.
  - destruct (openai_ready env); cbn [negb]; [|apply throws_throw].
    intros s. destruct (Hc (tick_of s) ms o) as [m Hm].
    unfold try_catch, ext, bind, next_tick, lift. rewrite Hm.
    exists ("OpenAI API Error: " ++ m), (with_tick s (Datatypes.S (tick_of s))). reflexivity.
Qed.
End Returns.

Lemma getp_defined : forall v p, v <> JUndef -> v <> JNull -> exists x, getp v p = Ok x.
Proof.
  intros v p Hu Hn. destruct v; try congruence; cbn;
    repeat match goal with |- exists _, match ?x with _ => _ end = _ => destruct x end;
    eexists; reflexivity.
Qed.

Lemma str_app_assoc : forall a b c : string, (a ++ b) ++ c = a ++ (b ++ c).
Proof. induction a as [|x a IH]; intros b c; cbn; [reflexivity|now rewrite IH]. Qed.

Section DownRuns.
Variable env : Env.
Hypothesis Hdown : completions_throw env.

Lemma analyzeTask_down : forall a task ctx,
  ok_post (AgentSDK.analyzeTask env a task ctx)
    (fun r => exists e, r = JObj [("taskType", JStr "unknown"); ("requiredTools", JArr []);
                                 ("complexity", JStr "unknown"); ("error", JStr e)]).
Proof.
  intros a task ctx. unfold AgentSDK.analyzeTask.
  apply ok_try_catch_throws; [|intros e; apply ok_ret; eexists; reflexivity].
  destruct (js_join env "agent.tools" ", " (obj_get a "tools")) as [t|m] eqn:Ej.
  - apply (throws_bind_ok _ _ _ _ (fun x => x = t)).
    + apply ok_lift. exists t. split; reflexivity.
    + intros x ->. cbv zeta. apply throws_bind. apply createChatCompletion_throws. exact Hdown.
  - apply throws_bind. intros s. exists m, s. reflexivity.
Qed.

Lemma createExecutionPlan_down : forall a task analysis ctx,
  ok_post (AgentSDK.createExecutionPlan env a task analysis ctx)
    (fun r => exists e, r = JObj [("steps", JStr (AgentSDK.fallback_plan_steps env task));
                                 ("requiredTools", JArr []); ("complexity", JStr "unknown");
                                 ("error", JStr e)]).
Proof.
  intros a task analysis ctx. unfold AgentSDK.createExecutionPlan.
  apply ok_try_catch_throws; [|intros e; apply ok_ret; eexists; reflexivity].
  cbv zeta. apply throws_bind. apply createChatCompletion_throws. exact Hdown.
Qed.

Lemma executePlan_no_tools : forall a task e ctx,
  ok_post (AgentSDK.executePlan env a
             (JObj [("steps", JStr (AgentSDK.fallback_plan_steps env task));
                    ("requiredTools", JArr []); ("complexity", JStr "unknown");
                    ("error", JStr e)]) ctx)
    (fun r => r = JObj [("results", JArr []); ("toolCalls", JArr []);
                        ("status", JStr "completed")]).
Proof. intros a task e ctx s. eexists; eexists. split; reflexivity. Qed.

Lemma generateFinalResponse_down : forall a task ctx,
  ok_post (AgentSDK.generateFinalResponse env a task
             (JObj [("results", JArr []); ("toolCalls", JArr []);
                    ("status", JStr "completed")]) ctx)
    (fun r => exists e, r = JStr (AgentSDK.apology env task e)).
Proof.
  intros a task ctx. unfold AgentSDK.generateFinalResponse.
  apply ok_try_catch_throws; [|intros e; apply ok_ret; eexists; reflexivity].
  apply (throws_bind_ok _ _ _ _ (fun x => x = JArr [])).
  { apply ok_lift. eexists. split; reflexivity. }
  intros x ->.
  apply (throws_bind_ok _ _ _ _ (fun x => x = [])).
  { apply ok_lift. eexists. split; reflexivity. }
  intros x ->. cbv zeta.
  apply throws_bind. apply createChatCompletion_throws. exact Hdown.
Qed.

Lemma processAgentTask_down : forall a task conv ctx,
  ok_post (AgentSDK.processAgentTask env a task conv ctx)
    (fun r => exists e1 e2 e3 ts,
       r = JObj [("success", JBool true); ("agentId", obj_get a "id");
                 ("agentName", obj_get a "name"); ("task", task);
                 ("analysis", JObj [("taskType", JStr "unknown"); ("requiredTools", JArr []);
                                    ("complexity", JStr "unknown"); ("error", JStr e1)]);
                 ("plan", JObj [("steps", JStr (AgentSDK.fallback_plan_steps env task));
                                ("requiredTools", JArr []); ("complexity", JStr "unknown");
                                ("error", JStr e2)]);
                 ("execution", JObj [("results", JArr []); ("toolCalls", JArr []);
                                     ("status", JStr "completed")]);
                 ("response", JStr (AgentSDK.apology env task e3));
                 ("toolCalls", JArr []); ("timestamp", JStr ts)]).
Proof.
  intros a task conv ctx. unfold AgentSDK.processAgentTask.
  apply ok_try_catch.
  eapply ok_bind; [apply analyzeTask_down|]. intros an [e1 ->].
  eapply ok_bind; [apply createExecutionPlan_down|]. intros pl [e2 ->].
  eapply ok_bind; [apply executePlan_no_tools|]. intros ex ->.
  eapply ok_bind; [apply generateFinalResponse_down|]. intros rsp [e3 ->].
  apply (ok_bind _ _ _ _ (fun x => x = JArr [])).
  { apply ok_lift. eexists. split; reflexivity. }
  intros tc ->.
  eapply ok_bind; [apply ok_new_date_iso|]. intros ts _.
  apply ok_ret. exists e1, e2, e3, ts. reflexivity.
Qed.
End DownRuns.

Lemma ok_resolve_conversation : forall env cid agentId,
  ok_post (AgentSDK.resolve_conversation env cid agentId) (fun _ => True).
Proof.
  intros env cid agentId s. unfold AgentSDK.resolve_conversation.
  destruct (AgentSDK.conv_index cid (AgentSDK.conversations s)).
  - eexists; eexists. split; [reflexivity|exact I].
  - eexists; eexists. split; [reflexivity|exact I].
Qed.

Lemma ok_get_conversation : forall i,
  ok_post (AgentSDK.get_conversation i) (fun _ => True).
Proof. intros i s. eexists; eexists. split; [reflexivity|exact I]. Qed.

Lemma ok_push_turn : forall i t, ok_post (AgentSDK.push_turn i t) (fun _ => True).
Proof. intros i t. apply ok_modify. Qed.

(** C1 (amended): when every completion call fails (the client is missing
    or every request is rejected), [executeAgent] on a stored agent, with a
    context that is not [null], returns [success:true] with the [unknown]
    Analysis ([taskType:"unknown"], [complexity:"unknown"], no tools, the
    error message), the fallback Plan text with [complexity:"unknown"], an
    execution with no tool call, and the apology as response; the apology
    quotes the task string verbatim. *)
Theorem executeAgent_completions_down : forall env agentId task context s a,
  completions_throw env ->
  AgentSDK.map_get agentId (AgentSDK.agents s) = Some a ->
  context <> JNull ->
  (exists e1 e2 e3 ts s',
     AgentSDK.executeAgent env agentId task context s =
     (Ok (JObj [("success", JBool true); ("agentId", obj_get a "id");
                ("agentName", obj_get a "name"); ("task", task);
                ("analysis", JObj [("taskType", JStr "unknown"); ("requiredTools", JArr []);
                                   ("complexity", JStr "unknown"); ("error", JStr e1)]);
                ("plan", JObj [("steps", JStr (AgentSDK.fallback_plan_steps env task));
                               ("requiredTools", JArr []); ("complexity", JStr "unknown");
                               ("error", JStr e2)]);
                ("execution", JObj [("results", JArr []); ("toolCalls", JArr []);
                                    ("status", JStr "completed")]);
                ("response", JStr (AgentSDK.apology env task e3));
                ("toolCalls", JArr []); ("timestamp", JStr ts)]), s')) /\
  (forall t e, exists pre post, AgentSDK.apology env (JStr t) e = pre ++ t ++ post).
Proof.
  intros env agentId task context s a Hdown Ha Hctx. split.
  2:{ intros t e. exists ("I completed the task " ++ dq).
      eexists. unfold AgentSDK.apology, quoted.
      change (js_to_string env (JStr t)) with t.
      rewrite !str_app_assoc. reflexivity. }
  set (R := fun r => exists e1 e2 e3 ts,
         r = JObj [("success", JBool true); ("agentId", obj_get a "id");
                   ("agentName", obj_get a "name"); ("task", task);
                   ("analysis", JObj [("taskType", JStr "unknown"); ("requiredTools", JArr []);
                                      ("complexity", JStr "unknown"); ("error", JStr e1)]);
                   ("plan", JObj [("steps", JStr (AgentSDK.fallback_plan_steps env task));
                                  ("requiredTools", JArr []); ("complexity", JStr "unknown");
                                  ("error", JStr e2)]);
                   ("execution", JObj [("results", JArr []); ("toolCalls", JArr []);
                                       ("status", JStr "completed")]);
                   ("response", JStr (AgentSDK.apology env task e3));
                   ("toolCalls", JArr []); ("timestamp", JStr ts)]).
  assert (Hctx' : dflt context (JObj []) <> JUndef /\ dflt context (JObj []) <> JNull)
    by (destruct context; cbn; split; congruence).
  destruct Hctx' as [Hu Hn].
  unfold AgentSDK.executeAgent. cbv zeta.
  match goal with
  | |- context [try_catch (bind (AgentSDK.find_agent _) ?k) ?h s] => set (K := k); set (Hd := h)
  end.
  assert (Hk : ok_post (K a) R).
  { subst K. cbv beta.
    apply (ok_bind _ _ _ _ (fun _ => True)).
    { apply ok_lift. destruct (getp_defined _ (PName "conversationId") Hu Hn) as [x Hx].
      exists x. split; [exact Hx|exact I]. }
    intros cid _.
    apply (ok_bind _ _ _ _ (fun _ => True)).
    { destruct (truthy cid); [apply ok_ret; exact I|].
      eapply ok_bind; [apply ok_uuid|]. intros. apply ok_ret. exact I. }
    intros cvid _.
    eapply ok_bind; [apply ok_resolve_conversation|]. intros i _.
    eapply ok_bind; [apply ok_get_conversation|]. intros conv _.
    eapply ok_bind; [apply processAgentTask_down; exact Hdown|]. intros r Hr.
    eapply ok_bind; [apply ok_new_date_iso|]. intros t1 _.
    eapply ok_bind; [apply ok_push_turn|]. intros [] _.
    destruct Hr as [e1 [e2 [e3 [ts ->]]]].
    apply (ok_bind _ _ _ _ (fun _ => True)).
    { apply ok_lift. eexists. split; [reflexivity|exact I]. }
    intros rsp _.
    apply (ok_bind _ _ _ _ (fun _ => True)).
    { apply ok_lift. eexists. split; [reflexivity|exact I]. }
    intros tcs _.
    eapply ok_bind; [apply ok_new_date_iso|]. intros t2 _.
    eapply ok_bind; [apply ok_push_turn|]. intros [] _.
    apply ok_ret. exists e1, e2, e3, ts. reflexivity. }
  destruct (Hk s) as [r [s' [E [e1 [e2 [e3 [ts Hr]]]]]]].
  exists e1, e2, e3, ts, s'. rewrite <- Hr.
  unfold try_catch, bind at 1, AgentSDK.find_agent. rewrite Ha. rewrite E. reflexivity.
Qed.

Lemma env_down_throws : completions_throw env_down.
Proof. right. intros n ms o. eexists. reflexivity. Qed.

(** C1 witness: the stored agent [u0] runs a task while the service is down. *)
Lemma executeAgent_completions_down_witness :
  completions_throw env_down /\
  AgentSDK.map_get "u0" (AgentSDK.agents (sdk_with_helper env_down (JArr []))) <> None /\
  exists r s',
    AgentSDK.executeAgent env_down "u0" (JStr "Summarize") (JObj [])
                          (sdk_with_helper env_down (JArr [])) = (Ok r, s') /\
    getp r (PName "success") = Ok (JBool true).
Proof.
  split; [exact env_down_throws|]. split; [vm_compute; discriminate|].
  destruct (executeAgent_completions_down env_down "u0" (JStr "Summarize") (JObj [])
              (sdk_with_helper env_down (JArr [])) _ env_down_throws eq_refl
              ltac:(discriminate)) as [[e1 [e2 [e3 [ts [s' E]]]]] _].
  eexists. exists s'. split; [exact E|reflexivity].
Defined.

(** C1 counterexample: with every completion failing, the run reports
    [success:true] but its Analysis has [taskType:"unknown"] and
    [complexity:"unknown"], not ["general"] and ["medium"], and its Plan has
    [complexity:"unknown"]. *)
Lemma executeAgent_completions_down_counterexample :
  match fst (AgentSDK.executeAgent env_down "u0" (JStr "Summarize") (JObj [])
                                   (sdk_with_helper env_down (JArr []))) with
  | Ok r => (getps r [PName "success"], getps r [PName "analysis"; PName "taskType"],
             getps r [PName "analysis"; PName "complexity"],
             getps r [PName "plan"; PName "complexity"])
            = (Ok (JBool true), Ok (JStr "unknown"), Ok (JStr "unknown"), Ok (JStr "unknown"))
  | Throw _ => False
  end.
Proof. vm_compute. reflexivity. Qed.

(** ** The [useFallback] flag of [OpenAIAgentsSDK] *)

Section FlagFrame.
Import OpenAIAgentsSDK.

Lemma kf_ret : forall A (a : A), keeps_flag (ret a).
Proof. intros A a s. reflexivity. Qed.

Lemma kf_throw : forall A e, keeps_flag (@throw SDK A e).
Proof. intros A e s. reflexivity. Qed.

Lemma kf_lift : forall A (r : res A), keeps_flag (lift r).
Proof. intros A r s. reflexivity. Qed.

Lemma kf_gets : forall A (f : SDK -> A), keeps_flag (gets f).
Proof. intros A f s. reflexivity. Qed.

Lemma kf_bind : forall A B (m : M SDK A) (k : A -> M SDK B),
  keeps_flag m -> (forall a, keeps_flag (k a)) -> keeps_flag (bind m k).
Proof.
  intros A B m k Hm Hk s. unfold bind.
  specialize (Hm s). destruct (m s) as [[a|e] s'] eqn:E; cbn in *.
  - rewrite (Hk a s'). exact Hm.
  - exact Hm.
Qed.

Lemma kf_try_catch : forall A (m : M SDK A) h,
  keeps_flag m -> (forall e, keeps_flag (h e)) -> keeps_flag (try_catch m h).
Proof.
  intros A m h Hm Hh s. unfold try_catch.
  specialize (Hm s). destruct (m s) as [[a|e] s'] eqn:E; cbn in *.
  - exact Hm.
  - rewrite (Hh e s'). exact Hm.
Qed.

Lemma kf_ext : forall A (f : nat -> res A), keeps_flag (ext f).
Proof. intros A f s. reflexivity. Qed.

Lemma kf_new_date_iso : forall env, keeps_flag (new_date_iso env).
Proof. intros env s. reflexivity. Qed.

Lemma kf_getm : forall v p, keeps_flag (getm v p).
Proof. intros v p s. reflexivity. Qed.

Create HintDb flag.
#[local] Hint Resolve kf_ret kf_throw kf_lift kf_gets kf_ext kf_new_date_iso kf_getm : flag.

(** Split a method into its steps and discharge each with [flag]. *)
Ltac kf_steps :=
  repeat (cbv zeta; intros;
          lazymatch goal with
          | |- keeps_flag (bind _ _) => apply kf_bind
          | |- keeps_flag (try_catch _ _) => apply kf_try_catch
          | |- keeps_flag (match ?x with _ => _ end) => destruct x
          | |- keeps_flag (if ?b then _ else _) => destruct b
          | |- keeps_flag _ => eauto with flag
          end).

Lemma kf_createChatCompletion : forall env ms o,
  keeps_flag (createChatCompletion (St := SDK) env ms o).
Proof. intros env ms o. unfold createChatCompletion. kf_steps. Qed.
#[local] Hint Resolve kf_createChatCompletion : flag.

Lemma kf_chat : forall env options, keeps_flag (chat env options).
Proof. intros env options. unfold chat. kf_steps. Qed.
#[local] Hint Resolve kf_chat : flag.

Lemma kf_runFallbackAgent : forall env t i, keeps_flag (runFallbackAgent env t i).
Proof. intros env t i. unfold runFallbackAgent. kf_steps. Qed.

Lemma kf_resolve_agent : forall t, keeps_flag (resolve_agent t).
Proof. intros t. unfold resolve_agent. kf_steps. Qed.
#[local] Hint Resolve kf_resolve_agent : flag.

Lemma kf_runPrimary : forall env t i, keeps_flag (runPrimary env t i).
Proof. intros env t i. unfold runPrimary. kf_steps. Qed.

Lemma kf_createCustomAgent : forall env n i m, keeps_flag (createCustomAgent env n i m).
Proof.
  intros env n i m. unfold createCustomAgent. kf_steps.
  intros s. reflexivity.
Qed.
End FlagFrame.

Lemma try_catch_bind_eq : forall S A B (m : M S A) (k : A -> M S B) h s a s',
  m s = (Ok a, s') -> try_catch (bind m k) h s = try_catch (k a) h s'.
Proof. intros S A B m k h s a s' E. unfold try_catch, bind. rewrite E. reflexivity. Qed.

Lemma chat_down : forall env options,
  completions_throw env ->
  ok_post (OpenAIAgentsSDK.chat env options)
    (fun r => exists e c, r = JObj [("success", JBool false); ("error", JStr e);
                                    ("created", JStr c)]).
Proof.
  intros env options Hdown. unfold OpenAIAgentsSDK.chat. cbv zeta.
  apply ok_try_catch_throws.
  - apply throws_bind. apply createChatCompletion_throws. exact Hdown.
  - intros e. eapply ok_bind; [apply ok_new_date_iso|]. intros c _.
    apply ok_ret. exists e, c. reflexivity.
Qed.

Lemma runFallbackAgent_returns : forall env t i s,
  exists r, fst (OpenAIAgentsSDK.runFallbackAgent env t i s) = Ok r.
Proof.
  intros env t i s. unfold OpenAIAgentsSDK.runFallbackAgent, try_catch.
  match goal with
  | |- exists _, fst (match ?m s with _ => _ end) = _ =>
      destruct (m s) as [[r|e] s']; eexists; reflexivity
  end.
Qed.

Lemma run_op_keeps_true : forall env o s,
  OpenAIAgentsSDK.useFallback s = true ->
  OpenAIAgentsSDK.useFallback (snd (OpenAIAgentsSDK.run_op env o s)) = true.
Proof.
  intros env [t i|n i m|] s Hs; cbn [OpenAIAgentsSDK.run_op].
  - unfold OpenAIAgentsSDK.runAgent, try_catch at 1, bind at 1, gets at 1.
    rewrite Hs. destruct (OpenAIAgentsSDK.runFallbackAgent env t i s) as [[r|e] s'] eqn:E.
    + cbn. rewrite <- Hs, <- (kf_runFallbackAgent env t i s), E. reflexivity.
    + cbn. unfold bind, modify. rewrite kf_runFallbackAgent. reflexivity.
  - rewrite kf_createCustomAgent. exact Hs.
  - exact Hs.
Qed.

(** C3: [useFallback] starts [false]; once [true], no operation resets it;
    while it is [true], [runAgent] of any agent type is exactly
    [runFallbackAgent] (the primary path is not run, whatever it would do);
    while it is [false], a primary path that returns gives its result with
    the flag still [false], and a primary path that throws sets the flag and
    runs [runFallbackAgent]; [runFallbackAgent] always returns and never
    changes the flag, and when its completion call fails it returns
    [{success:false, error}]. *)
Theorem useFallback_sticky :
  OpenAIAgentsSDK.useFallback OpenAIAgentsSDK.initial = false /\
  (forall env os s, OpenAIAgentsSDK.useFallback s = true ->
     OpenAIAgentsSDK.useFallback (OpenAIAgentsSDK.run_ops env os s) = true) /\
  (forall env t i s, OpenAIAgentsSDK.useFallback s = true ->
     OpenAIAgentsSDK.runAgent env t i s = OpenAIAgentsSDK.runFallbackAgent env t i s) /\
  (forall env t i s r s', OpenAIAgentsSDK.useFallback s = false ->
     OpenAIAgentsSDK.runPrimary env t i s = (Ok r, s') ->
     OpenAIAgentsSDK.runAgent env t i s = (Ok r, s') /\
     OpenAIAgentsSDK.useFallback s' = false) /\
  (forall env t i s e s', OpenAIAgentsSDK.useFallback s = false ->
     OpenAIAgentsSDK.runPrimary env t i s = (Throw e, s') ->
     OpenAIAgentsSDK.runAgent env t i s
       = OpenAIAgentsSDK.runFallbackAgent env t i (OpenAIAgentsSDK.set_useFallback s' true) /\
     OpenAIAgentsSDK.useFallback (snd (OpenAIAgentsSDK.runAgent env t i s)) = true) /\
  (forall env t i s,
     (exists r, fst (OpenAIAgentsSDK.runFallbackAgent env t i s) = Ok r) /\
     OpenAIAgentsSDK.useFallback (snd (OpenAIAgentsSDK.runFallbackAgent env t i s))
       = OpenAIAgentsSDK.useFallback s) /\
  (forall env t i s, completions_throw env ->
     fst (OpenAIAgentsSDK.runFallbackAgent env t i s)
     = Ok (JObj [("success", JBool false);
                 ("error", JStr ("Fallback agent failed: "
                                 ++ "Failed to get response from fallback implementation"))])).
Proof.
  split; [reflexivity|]. split.
  { intros env os. induction os as [|o os IH]; intros s Hs; cbn; [exact Hs|].
    apply IH. apply run_op_keeps_true. exact Hs. }
  split.
  { intros env t i s Hs. unfold OpenAIAgentsSDK.runAgent, try_catch at 1, bind at 1, gets at 1.
    rewrite Hs. destruct (OpenAIAgentsSDK.runFallbackAgent env t i s) as [[r|e] s'] eqn:E.
    - reflexivity.
    - destruct (runFallbackAgent_returns env t i s) as [r Hr].
      rewrite E in Hr. discriminate. }
  split.
  { intros env t i s r s' Hs Hp. split.
    - unfold OpenAIAgentsSDK.runAgent, try_catch at 1, bind at 1, gets at 1.
      rewrite Hs, Hp. reflexivity.
    - rewrite <- Hs, <- (kf_runPrimary env t i s), Hp. reflexivity. }
  split.
  { intros env t i s e s' Hs Hp.
    assert (E : OpenAIAgentsSDK.runAgent env t i s
                = OpenAIAgentsSDK.runFallbackAgent env t i (OpenAIAgentsSDK.set_useFallback s' true)).
    { unfold OpenAIAgentsSDK.runAgent, try_catch at 1, bind at 1, gets at 1.
      rewrite Hs, Hp. reflexivity. }
    split; [exact E|]. rewrite E, kf_runFallbackAgent. reflexivity. }
  split.
  { intros env t i s. split; [apply runFallbackAgent_returns|apply kf_runFallbackAgent]. }
  intros env t i s Hdown.
  unfold OpenAIAgentsSDK.runFallbackAgent. cbv zeta.
  match goal with
  | |- context [try_catch (bind (OpenAIAgentsSDK.chat ?en ?o) ?k) ?h s] =>
      destruct (chat_down en o Hdown s) as [r [s' [E [e [c ->]]]]];
      rewrite (try_catch_bind_eq _ _ _ _ k h s _ s' E)
  end.
  reflexivity.
Qed.

(** C3 witness: a primary run that answers keeps the flag [false]; one that
    throws sets it; later runs go through the fallback; the fallback's failed
    completion is reported. *)
Lemma useFallback_sticky_witness :
  let s1 := OpenAIAgentsSDK.mkSDK true [] 1 in
  OpenAIAgentsSDK.useFallback OpenAIAgentsSDK.initial = false /\
  OpenAIAgentsSDK.runAgent env_agents_up (JStr "history") (JStr "q") OpenAIAgentsSDK.initial
    = (Ok (JObj [("success", JBool true); ("output", JStr "done");
                 ("finalAgent", JStr "History Tutor"); ("handoffs", JArr []);
                 ("toolsUsed", JArr [])]), OpenAIAgentsSDK.mkSDK false [] 1) /\
  OpenAIAgentsSDK.useFallback
    (snd (OpenAIAgentsSDK.runAgent env_down (JStr "history") (JStr "q") OpenAIAgentsSDK.initial))
    = true /\
  OpenAIAgentsSDK.runAgent env_agents_up (JStr "math") (JStr "2+2") s1
    = OpenAIAgentsSDK.runFallbackAgent env_agents_up (JStr "math") (JStr "2+2") s1 /\
  OpenAIAgentsSDK.useFallback
    (OpenAIAgentsSDK.run_ops env_agents_up
       [OpenAIAgentsSDK.OpRun (JStr "math") (JStr "2+2"); OpenAIAgentsSDK.OpList] s1) = true /\
  fst (OpenAIAgentsSDK.runFallbackAgent env_down (JStr "triage") (JStr "hi") s1)
    = Ok (JObj [("success", JBool false);
                ("error", JStr ("Fallback agent failed: "
                                ++ "Failed to get response from fallback implementation"))]).
Proof.
  intros s1.
  destruct useFallback_sticky as [H0 [Hops [Htrue [Hok [Hthrow [_ Hdown]]]]]].
  split; [exact H0|]. split.
  { apply (proj1 (Hok env_agents_up (JStr "history") (JStr "q") OpenAIAgentsSDK.initial _ _
                      eq_refl eq_refl)). }
  split.
  { apply (proj2 (Hthrow env_down (JStr "history") (JStr "q") OpenAIAgentsSDK.initial
                        "503 Service Unavailable" (OpenAIAgentsSDK.mkSDK false [] 1)
                        eq_refl eq_refl)). }
  split; [apply Htrue; reflexivity|].
  split; [apply Hops; reflexivity|].
  apply Hdown. exact env_down_throws.
Defined.

(** ** Tool dispatch *)

Section ToolFrame.
Context {S : Type}.

Lemma ri_ret : forall A (a : A) (P : A -> Prop), P a -> returns_in (S := S) (ret a) P.
Proof. intros A a P Ha s b s' E. injection E as <- _. exact Ha. Qed.

Lemma ri_throw : forall A e (P : A -> Prop), returns_in (S := S) (throw e) P.
Proof. intros A e P s b s' E. discriminate. Qed.

Lemma ri_bind : forall A B (m : M S A) (k : A -> M S B) P,
  (forall a, returns_in (k a) P) -> returns_in (bind m k) P.
Proof.
  intros A B m k P Hk s b s' E. unfold bind in E.
  destruct (m s) as [[a|e] s1]; [exact (Hk a _ _ _ E)|discriminate].
Qed.

Context `{Ticks S}.

Lemma ri_ext : forall A (f : nat -> res A) (P : A -> Prop),
  (forall n a, f n = Ok a -> P a) -> returns_in (S := S) (ext f) P.
Proof.
  intros A f P Hf s a s' E. unfold ext, bind, next_tick, lift in E.
  injection E as E _. exact (Hf _ _ E).
Qed.
End ToolFrame.

Lemma ri_tool_web : forall S `{Ticks S} env q m,
  returns_in (S := S) (ext (fun n => web_search env n q m)) (tool_value env).
Proof. intros. apply ri_ext. intros n a E. left. eauto. Qed.

Lemma ri_tool_file : forall S `{Ticks S} env f q,
  returns_in (S := S) (ext (fun n => file_search env n f q)) (tool_value env).
Proof. intros. apply ri_ext. intros n a E. right; left. eauto. Qed.

Lemma ri_tool_computer : forall S `{Ticks S} env c,
  returns_in (S := S) (ext (fun n => computer_use env n c)) (tool_value env).
Proof. intros. apply ri_ext. intros n a E. right; right. eauto. Qed.

Create HintDb tools.
#[local] Hint Resolve ri_throw ri_tool_web ri_tool_file ri_tool_computer : tools.

Ltac ri_steps :=
  repeat (cbv zeta; intros;
          lazymatch goal with
          | |- returns_in (bind _ _) _ => apply ri_bind
          | |- returns_in (match ?x with _ => _ end) _ => destruct x
          | |- returns_in (if ?b then _ else _) _ => destruct b
          | |- returns_in _ _ => eauto with tools
          end).

Lemma executeTool_returns : forall env toolName context s,
  exists r s', AgentSDK.executeTool env toolName context s = (Ok r, s') /\
    ((exists e, r = JObj [("success", JBool false); ("error", JStr e); ("tool", toolName)])
     \/ tool_value env r).
Proof.
  intros env toolName context s. unfold AgentSDK.executeTool, try_catch.
  match goal with
  | |- exists _ _, match ?m s with _ => _ end = _ /\ _ =>
      assert (Hm : returns_in m (tool_value env)) by ri_steps;
      destruct (m s) as [[a|e] s'] eqn:E
  end.
  - exists a, s'. split; [reflexivity|]. right. exact (Hm _ _ _ E).
  - eexists; exists s'. split; [reflexivity|]. left. eexists; reflexivity.
Qed.

(** The names a [for .. of] loop over [plan.requiredTools] dispatches: those
    [this.tools[toolName]] finds. *)
Lemma dispatch_shape : forall env names context s,
  let reg := fun n => match AgentSDK.tools_get (js_to_string env n) with
                      | Some _ => true | None => false end in
  exists results s',
    AgentSDK.dispatch env names context s
    = (Ok (results, map (fun nr => JObj [("tool", fst nr); ("result", snd nr)])
                        (combine (filter reg names) results)), s') /\
    length results = length (filter reg names).
Proof.
  intros env names context. induction names as [|n rest IH]; intros s reg.
  - exists [], s. split; reflexivity.
  - cbn [AgentSDK.dispatch filter]. subst reg. cbv beta.
    destruct (AgentSDK.tools_get (js_to_string env n)) eqn:Et.
    + destruct (executeTool_returns env n context s) as [r [s1 [E _]]].
      destruct (IH s1) as [results [s2 [E2 Hlen]]].
      exists (r :: results), s2. unfold bind. rewrite E, E2. cbn.
      split; [reflexivity|]. rewrite Hlen. reflexivity.
    + exact (IH s).
Qed.

(** C9: [executeTool] always returns: its value is either a tool method's
    own result or [{success:false, error, tool:toolName}], the latter for
    every exception (so an object whenever the tool methods return
    objects); a registered tool whose context lacks [query] (web_search),
    [filePath] or [query] (file_search), or both [action] and [command]
    (computer_use) gives [{success:false, error:"Tool <name> requires
    additional context", tool:<name>}]; and [executePlan] over a
    [requiredTools] array dispatches every registered name, in order, each
    with its own result, and reports [status:"completed"]. *)
Theorem executeTool_contains_failures : forall env,
  (forall toolName context s, exists r s',
     AgentSDK.executeTool env toolName context s = (Ok r, s') /\
     ((exists e, r = JObj [("success", JBool false); ("error", JStr e); ("tool", toolName)])
      \/ tool_value env r)) /\
  ((forall r, tool_value env r -> exists fs, r = JObj fs) ->
   forall toolName context s, exists fs,
     fst (AgentSDK.executeTool env toolName context s) = Ok (JObj fs)) /\
  (forall fs s, truthy (obj_get fs "query") = false ->
     fst (AgentSDK.executeTool env (JStr "web_search") (JObj fs) s)
     = Ok (JObj [("success", JBool false);
                 ("error", JStr ("Tool " ++ "web_search" ++ " requires additional context"));
                 ("tool", JStr "web_search")])) /\
  (forall fs s, truthy (obj_get fs "filePath") = false \/ truthy (obj_get fs "query") = false ->
     fst (AgentSDK.executeTool env (JStr "file_search") (JObj fs) s)
     = Ok (JObj [("success", JBool false);
                 ("error", JStr ("Tool " ++ "file_search" ++ " requires additional context"));
                 ("tool", JStr "file_search")])) /\
  (forall fs s, truthy (obj_get fs "action") = false -> truthy (obj_get fs "command") = false ->
     fst (AgentSDK.executeTool env (JStr "computer_use") (JObj fs) s)
     = Ok (JObj [("success", JBool false);
                 ("error", JStr ("Tool " ++ "computer_use" ++ " requires additional context"));
                 ("tool", JStr "computer_use")])) /\
  (forall agent plan context s names,
     getp plan (PName "requiredTools") = Ok (JArr names) ->
     let reg := fun n => match AgentSDK.tools_get (js_to_string env n) with
                         | Some _ => true | None => false end in
     exists results,
       fst (AgentSDK.executePlan env agent plan context s)
       = Ok (JObj [("results", JArr results);
                   ("toolCalls", JArr (map (fun nr => JObj [("tool", fst nr); ("result", snd nr)])
                                           (combine (filter reg names) results)));
                   ("status", JStr "completed")]) /\
       length results = length (filter reg names)).
Proof.
  intros env. split; [apply executeTool_returns|]. split.
  { intros Hobj toolName context s.
    destruct (executeTool_returns env toolName context s) as [r [s' [E [[e ->]|Hv]]]];
      rewrite E; cbn [fst].
    - eexists. reflexivity.
    - destruct (Hobj r Hv) as [fs ->]. exists fs. reflexivity. }
  split.
  { intros fs s Hq.
    unfold AgentSDK.executeTool, try_catch, bind, AgentSDK.getm, lift, throw.
    cbn -[obj_get truthy]. rewrite Hq. reflexivity. }
  split.
  { intros fs s Hfq.
    unfold AgentSDK.executeTool, try_catch, bind, AgentSDK.getm, lift, throw.
    cbn -[obj_get truthy].
    destruct (truthy (obj_get fs "filePath")) eqn:Ef; [|reflexivity].
    destruct Hfq as [Hf|Hq]; [discriminate|]. rewrite Hq. reflexivity. }
  split.
  { intros fs s Ha Hc.
    unfold AgentSDK.executeTool, try_catch, bind, AgentSDK.getm, lift, throw, ret.
    cbn -[obj_get truthy]. rewrite Ha. cbn -[obj_get truthy]. rewrite Hc. reflexivity. }
  intros agent plan context s names Hp reg.
  destruct (dispatch_shape env names context s) as [results [s' [E Hlen]]].
  exists results. split; [|exact Hlen].
  unfold AgentSDK.executePlan, try_catch, bind, AgentSDK.getm, lift.
  rewrite Hp. cbn [js_iter]. rewrite E. reflexivity.
Qed.

Lemma env_down_tool_objects : forall r, tool_value env_down r -> exists fs, r = JObj fs.
Proof.
  intros r [[n [q [m E]]]|[[n [f [q E]]]|[n [c E]]]];
    injection E as <-; eexists; reflexivity.
Qed.

Definition plan_three_tools : jsval :=
  JObj [("requiredTools", JArr [JStr "web_search"; JStr "calculator"; JStr "file_search"])].

(** C9 witness: contexts that miss their fields, a prototype member as tool
    name, and a plan whose [file_search] lacks its context. *)
Lemma executeTool_contains_failures_witness :
  fst (AgentSDK.executeTool env_down (JStr "web_search") (JObj []) AgentSDK.initial)
    = Ok (JObj [("success", JBool false);
                ("error", JStr ("Tool " ++ "web_search" ++ " requires additional context"));
                ("tool", JStr "web_search")]) /\
  fst (AgentSDK.executeTool env_down (JStr "file_search") (JObj [("filePath", JStr "a.txt")])
                            AgentSDK.initial)
    = Ok (JObj [("success", JBool false);
                ("error", JStr ("Tool " ++ "file_search" ++ " requires additional context"));
                ("tool", JStr "file_search")]) /\
  fst (AgentSDK.executeTool env_down (JStr "computer_use") (JObj []) AgentSDK.initial)
    = Ok (JObj [("success", JBool false);
                ("error", JStr ("Tool " ++ "computer_use" ++ " requires additional context"));
                ("tool", JStr "computer_use")]) /\
  (exists fs, fst (AgentSDK.executeTool env_down (JStr "toString") (JObj []) AgentSDK.initial)
              = Ok (JObj fs)) /\
  (exists results,
     fst (AgentSDK.executePlan env_down [] plan_three_tools (JObj [("query", JStr "q")])
                               AgentSDK.initial)
     = Ok (JObj [("results", JArr results);
                 ("toolCalls", JArr (map (fun nr => JObj [("tool", fst nr); ("result", snd nr)])
                                         (combine [JStr "web_search"; JStr "file_search"] results)));
                 ("status", JStr "completed")]) /\
     length results = 2%nat).
Proof.
  destruct (executeTool_contains_failures env_down)
    as [_ [Hobj [Hweb [Hfile [Hcomp Hplan]]]]].
  split; [apply Hweb; reflexivity|].
  split; [apply Hfile; right; reflexivity|].
  split; [apply Hcomp; reflexivity|].
  split; [apply Hobj; exact env_down_tool_objects|].
  exact (Hplan [] plan_three_tools (JObj [("query", JStr "q")]) AgentSDK.initial _ eq_refl).
Defined.

(** C8: [this.tools] is an object literal, so [this.tools['toString']] is
    [Object.prototype.toString], a truthy function. A required tool named
    ["toString"], which is not one of the registry's keys, is therefore
    dispatched: the run records it in [toolCalls] and in the execution
    results, with the failure [executeTool] returns for it. *)
Lemma unregistered_tool_dispatched :
  let s := sdk_with_helper env_prose (JArr [JStr "toString"]) in
  ~ In "toString" AgentSDK.tool_names /\
  match fst (AgentSDK.executeAgent env_prose "u0" (JStr "Do it") (JObj []) s) with
  | Ok r =>
      getps r [PName "success"] = Ok (JBool true) /\
      getps r [PName "toolCalls"]
      = Ok (JArr [JObj [("tool", JStr "toString");
                        ("result", JObj [("success", JBool false);
                                         ("error", JStr "Tool toString requires additional context");
                                         ("tool", JStr "toString")])]]) /\
      getps r [PName "execution"; PName "results"]
      = Ok (JArr [JObj [("success", JBool false);
                        ("error", JStr "Tool toString requires additional context");
                        ("tool", JStr "toString")]])
  | Throw _ => False
  end.
Proof.
  intros s. split.
  - cbn. intuition discriminate.
  - vm_compute. repeat split; reflexivity.
Qed.

(** C2: with [context] [null] (the default [{}] only replaces [undefined]),
    [executeAgent] on a stored agent fails on [context.conversationId]
    before any conversation is resolved: it returns [{success:false, error,
    agentId, task}] and leaves the state as it was, so no user or assistant
    turn is appended anywhere. *)
Theorem executeAgent_null_context : forall env agentId task s a,
  AgentSDK.map_get agentId (AgentSDK.agents s) = Some a ->
  AgentSDK.executeAgent env agentId task JNull s
  = (Ok (JObj [("success", JBool false);
               ("error", JStr "Cannot read properties of null (reading 'conversationId')");
               ("agentId", JStr agentId); ("task", task)]), s).
Proof.
  intros env agentId task s a Ha.
  unfold AgentSDK.executeAgent, try_catch, bind, AgentSDK.find_agent.
  rewrite Ha. reflexivity.
Qed.

(** C2 witness: agent [u0], whose store holds no conversation. *)
Lemma executeAgent_null_context_witness :
  let s := sdk_with_helper env_down (JArr []) in
  AgentSDK.conversations s = [] /\
  AgentSDK.executeAgent env_down "u0" (JStr "Do it") JNull s
  = (Ok (JObj [("success", JBool false);
               ("error", JStr "Cannot read properties of null (reading 'conversationId')");
               ("agentId", JStr "u0"); ("task", JStr "Do it")]), s).
Proof.
  intros s. split; [reflexivity|].
  exact (executeAgent_null_context env_down "u0" (JStr "Do it") s _ eq_refl).
Defined.

(** ** The requests of src/src/config/openai.js *)

Lemma obj_get_fold_set : forall es base k,
  obj_get (fold_left (fun o kv => obj_set o (fst kv) (snd kv)) es base) k
  = match last_value k es with Some v => v | None => obj_get base k end.
Proof.
  induction es as [|[k0 v0] es IH]; intros base k; cbn [fold_left fst snd last_value];
    [reflexivity|].
  rewrite IH. destruct (last_value k es) as [w|]; [reflexivity|].
  rewrite obj_get_set. destruct (String.eqb k k0); reflexivity.
Qed.


Lemma last_value_none : forall k es, last_value k es = None -> obj_get es k = JUndef.
Proof.
  induction es as [|[k0 v0] es IH]; cbn; [reflexivity|].
  destruct (last_value k es); [discriminate|].
  destruct (String.eqb k k0); [discriminate|]. auto.
Qed.

(** [createChatCompletion(messages, options)] sends [{ model: this.getModel(options.model),
    messages, temperature: options.temperature ?? config.temperature,
    max_tokens: options.max_tokens ?? config.maxTokens, ...options }]: since
    [...options] comes last, every key [options] supplies takes its last value
    there, and the other keys take their defaults. *)
Lemma chat_completion_request_keys : forall env messages fs,
  exists req,
    OpenAIConfig.chat_completion_request env messages (JObj fs) = Ok (JObj req) /\
    forall k, obj_get req k = match last_value k fs with
                              | Some v => v
                              | None => request_default env messages k
                              end.
Proof.
  intros env messages fs. eexists. split; [reflexivity|].
  intros k. unfold OpenAIConfig.spread_entries. cbn [AgentSDK.object_entries dflt].
  rewrite obj_get_fold_set.
  destruct (last_value k fs) as [v|] eqn:E; [reflexivity|].
  pose proof (last_value_none k fs E) as Hk.
  unfold request_default. cbn [obj_get].
  destruct (String.eqb k "model") eqn:E1.
  - apply String.eqb_eq in E1; subst k. cbn [prop_text getp]. rewrite Hk.
    reflexivity.
  - destruct (String.eqb k "messages"); [reflexivity|].
    destruct (String.eqb k "temperature") eqn:E3.
    + apply String.eqb_eq in E3; subst k. cbn [prop_text getp]. rewrite Hk. reflexivity.
    + destruct (String.eqb k "max_tokens") eqn:E4; [|reflexivity].
      apply String.eqb_eq in E4; subst k. cbn [prop_text getp]. rewrite Hk. reflexivity.
Qed.


(** ** [TextToImageAgent.validatePrompt] and [generateImage] *)

Lemma prefix_app : forall n h, String.prefix n h = true <-> exists b, h = n ++ b.
Proof.
  intros n h. revert n. induction h as [|c' h IH]; intros [|c n]; cbn.
  - split; [intros _; exists ""; reflexivity|reflexivity].
  - split; [discriminate|intros [b Hb]; discriminate].
  - split; [intros _; exists (String c' h); reflexivity|reflexivity].
  - destruct (ascii_dec c c') as [<-|Hne].
    + rewrite IH. split; intros [b Hb]; exists b; [rewrite Hb; reflexivity|].
      injection Hb; auto.
    + split; [discriminate|intros [b Hb]; injection Hb; intros; congruence].
Qed.

Lemma includes_app : forall h n,
  TextToImageAgent.includes h n = true <-> exists a b, h = a ++ n ++ b.
Proof.
  induction h as [|c h IH]; intros n; cbn [TextToImageAgent.includes].
  - rewrite orb_false_r, prefix_app. split.
    + intros [b Hb]. exists "", b. exact Hb.
    + intros [a [b Hab]]. destruct a; [exists b; exact Hab|discriminate].
  - rewrite orb_true_iff, prefix_app, IH. split.
    + intros [[b Hb]|[a [b Hab]]].
      * exists "", b. exact Hb.
      * exists (String c a), b. rewrite Hab. reflexivity.
    + intros [a [b Hab]]. destruct a as [|c' a].
      * left. exists b. exact Hab.
      * right. exists a, b. injection Hab; auto.
Qed.

Lemma find_none_iff : forall {A} (f : A -> bool) l,
  find f l = None <-> forall x, In x l -> f x = false.
Proof.
  induction l as [|x l IH]; cbn.
  - split; [intros _ y []|reflexivity].
  - destruct (f x) eqn:E.
    + split; [discriminate|]. intros H. rewrite (H x (or_introl eq_refl)) in E. discriminate.
    + rewrite IH. split.
      * intros H y [<-|Hy]; auto.
      * intros H y Hy; auto.
Qed.

Lemma string_length_zero : forall s, String.length s = 0%nat <-> s = "".
Proof. intros [|c s]; cbn; split; congruence. Qed.

(** [validatePrompt] accepts exactly the strings whose trimmed text is not
    empty, that are at most 4000 characters long and whose lower-cased text
    contains none of the prohibited terms. *)
Lemma validatePrompt_valid_iff : forall prompt,
  TextToImageAgent.validatePrompt prompt = JObj [("valid", JBool true)] <->
  exists s, prompt = JStr s /\
            TextToImageAgent.trim s <> "" /\
            (String.length s <= 4000)%nat /\
            forall t, In t TextToImageAgent.prohibitedTerms ->
                      ~ exists a b, TextToImageAgent.toLowerCase s = a ++ t ++ b.
Proof.
  intros prompt. split.
  - destruct prompt as [| | | |s| |]; cbn [TextToImageAgent.validatePrompt]; try discriminate.
    destruct (String.eqb s "") eqn:E0; [discriminate|].
    destruct (Nat.eqb (String.length (TextToImageAgent.trim s)) 0) eqn:E1; [discriminate|].
    destruct (Nat.ltb 4000 (String.length s)) eqn:E2; [discriminate|].
    destruct (find _ _) eqn:E3; [discriminate|]. intros _.
    exists s. split; [reflexivity|]. split; [|split].
    + intros H. rewrite H in E1. discriminate.
    + apply Nat.ltb_ge. exact E2.
    + intros t Ht Hin. apply includes_app in Hin.
      pose proof (proj1 (find_none_iff _ _) E3 t Ht) as Hf. cbn beta in Hf. congruence.
  - intros [s [-> [Ht [Hl Hp]]]]. cbn [TextToImageAgent.validatePrompt].
    destruct (String.eqb s "") eqn:E0.
    { apply String.eqb_eq in E0. subst s. exfalso. apply Ht. reflexivity. }
    destruct (Nat.eqb (String.length (TextToImageAgent.trim s)) 0) eqn:E1.
    { apply Nat.eqb_eq, string_length_zero in E1. contradiction. }
    destruct (Nat.ltb 4000 (String.length s)) eqn:E2.
    { apply Nat.ltb_lt in E2. lia. }
    replace (find _ _) with (@None string); [reflexivity|].
    symmetry. apply find_none_iff. intros t Hin.
    destruct (TextToImageAgent.includes _ t) eqn:E; [|reflexivity].
    exfalso. apply (Hp t Hin). apply includes_app. exact E.
Qed.

Lemma same_value_zero_str : forall v s,
  AgentSDK.same_value_zero v (JStr s) = true <-> v = JStr s.
Proof.
  intros [| | | |t| |] s; cbn; split; try discriminate; try (intros H; discriminate H).
  - intros H. apply String.eqb_eq in H. subst. reflexivity.
  - intros H. injection H as ->. apply String.eqb_refl.
Qed.

(** For a prompt that passes [validatePrompt], [generateImage] calls the image
    service exactly once, with the request [params] built from the options and
    their defaults; for ['dall-e-3'] the request carries quality and style and
    forces [n = 1], otherwise it has the five base keys only. *)
Lemma generateImage_request : forall env images prompt fs k,
  TextToImageAgent.validatePrompt prompt = JObj [("valid", JBool true)] ->
  let model := dflt (obj_get fs "model") (JStr "dall-e-2") in
  let params := TextToImageAgent.request_params model prompt (dflt (obj_get fs "n") (JNum 1))
                  (dflt (obj_get fs "size") (JStr "1024x1024"))
                  (dflt (obj_get fs "quality") (JStr "standard"))
                  (dflt (obj_get fs "style") (JStr "vivid")) in
  snd (TextToImageAgent.generateImage env images prompt (JObj fs) k) = S k /\
  (forall images', images' k (JObj params) = images k (JObj params) ->
     TextToImageAgent.generateImage env images' prompt (JObj fs) k
     = TextToImageAgent.generateImage env images prompt (JObj fs) k) /\
  (model = JStr "dall-e-3" ->
     map fst params = ["model"; "prompt"; "n"; "size"; "response_format"; "quality"; "style"] /\
     obj_get params "n" = JNum 1 /\
     obj_get params "quality" = dflt (obj_get fs "quality") (JStr "standard") /\
     obj_get params "style" = dflt (obj_get fs "style") (JStr "vivid")) /\
  (model <> JStr "dall-e-3" ->
     params = [("model", model); ("prompt", prompt); ("n", dflt (obj_get fs "n") (JNum 1));
               ("size", dflt (obj_get fs "size") (JStr "1024x1024"));
               ("response_format", JStr "url")]).
Proof.
  intros env images prompt fs k Hv model params.
  split; [|split; [|split]].
  - unfold TextToImageAgent.generateImage, try_catch, bind, lift, ext, next_tick, ret, throw.
    cbn [dflt TextToImageAgent.destructure_options getp prop_text]. rewrite Hv.
    cbn -[TextToImageAgent.request_params].
    repeat match goal with
           | |- context [match ?m with _ => _ end] =>
               lazymatch m with
               | match _ with _ => _ end => fail
               | _ => destruct m
               end
           end; reflexivity.
  - intros images' H. subst params model.
    unfold TextToImageAgent.generateImage, try_catch, bind, lift, ext, next_tick, ret, throw.
    cbn [dflt TextToImageAgent.destructure_options getp prop_text]. rewrite Hv.
    cbn -[TextToImageAgent.request_params]. rewrite H. reflexivity.
  - intros Hm. subst params. unfold TextToImageAgent.request_params.
    rewrite Hm. cbn. repeat split.
  - intros Hm. subst params. unfold TextToImageAgent.request_params.
    destruct (AgentSDK.same_value_zero model (JStr "dall-e-3")) eqn:E; [|reflexivity].
    apply same_value_zero_str in E. contradiction.
Qed.




(** ** What the [AgentSDK] methods do to its store *)

Section StoreFrame.
Import AgentSDK.
Context (R : SDK -> SDK -> Prop) `{StoreOrder R}.

Lemma leads_ret : forall A (a : A), leads R (ret a).
Proof. intros A a s. apply so_refl. Qed.

Lemma leads_throw : forall A e, leads R (@throw SDK A e).
Proof. intros A e s. apply so_refl. Qed.

Lemma leads_lift : forall A (r : res A), leads R (lift r).
Proof. intros A r s. apply so_refl. Qed.

Lemma leads_gets : forall A (f : SDK -> A), leads R (gets f).
Proof. intros A f s. apply so_refl. Qed.

Lemma leads_bind : forall A B (m : M SDK A) (k : A -> M SDK B),
  leads R m -> (forall a, leads R (k a)) -> leads R (bind m k).
Proof.
  intros A B m k Hm Hk s. unfold bind.
  specialize (Hm s). destruct (m s) as [[a|e] s'] eqn:E; cbn in *.
  - eapply so_trans; [exact Hm|apply Hk].
  - exact Hm.
Qed.

Lemma leads_try_catch : forall A (m : M SDK A) h,
  leads R m -> (forall e, leads R (h e)) -> leads R (try_catch m h).
Proof.
  intros A m h Hm Hh s. unfold try_catch.
  specialize (Hm s). destruct (m s) as [[a|e] s'] eqn:E; cbn in *.
  - exact Hm.
  - eapply so_trans; [exact Hm|apply Hh].
Qed.

Lemma leads_ext : forall A (f : nat -> res A), leads R (ext f).
Proof.
  intros A f s. unfold ext, bind, next_tick, lift. cbn. apply so_tick.
Qed.

Lemma leads_new_date_iso : forall env, leads R (new_date_iso env).
Proof. intros; apply leads_ext. Qed.

Lemma leads_uuid : forall env, leads R (uuid env).
Proof. intros; apply leads_ext. Qed.

Lemma leads_createChatCompletion : forall env ms o, leads R (createChatCompletion env ms o).
Proof.
  intros env ms o. unfold createChatCompletion.
  destruct (negb (openai_ready env)).
  - apply leads_throw.
  - apply leads_try_catch; [apply leads_ext|intros; apply leads_throw].
Qed.

Lemma leads_getm : forall v p, leads R (getm v p).
Proof. intros; apply leads_lift. Qed.

Lemma leads_find_agent : forall agentId, leads R (find_agent agentId).
Proof. intros agentId s. unfold find_agent. destruct (map_get _ _); apply so_refl. Qed.

Lemma leads_get_conversation : forall i, leads R (get_conversation i).
Proof. intros i s. apply so_refl. Qed.
End StoreFrame.

Create HintDb store.
#[export] Hint Resolve leads_ret leads_throw leads_lift leads_gets leads_ext
  leads_new_date_iso leads_uuid leads_createChatCompletion leads_getm
  leads_find_agent leads_get_conversation : store.

(** Split a method into its steps and discharge each with [store]. *)
Ltac leads_steps :=
  repeat (cbv zeta; repeat lazymatch goal with |- forall _, _ => intro end;
          lazymatch goal with
          | |- leads _ (bind _ _) => apply leads_bind; [exact _| |]
          | |- leads _ (try_catch _ _) => apply leads_try_catch; [exact _| |]
          | |- leads _ (match ?x with _ => _ end) => destruct x
          | |- leads _ (if ?b then _ else _) => destruct b
          | |- leads _ _ => eauto with store typeclass_instances
          end).

Section StorePipeline.
Import AgentSDK.
Context (R : SDK -> SDK -> Prop) `{StoreOrder R}.
Variable env : Env.

Lemma leads_analyzeTask : forall agent task context,
  leads R (analyzeTask env agent task context).
Proof. intros. unfold analyzeTask. leads_steps. Qed.

Lemma leads_createExecutionPlan : forall agent task analysis context,
  leads R (createExecutionPlan env agent task analysis context).
Proof. intros. unfold createExecutionPlan. leads_steps. Qed.

Lemma leads_executeTool : forall toolName context,
  leads R (executeTool env toolName context).
Proof. intros. unfold executeTool. leads_steps. Qed.

Lemma leads_dispatch : forall names context, leads R (dispatch env names context).
Proof.
  induction names as [|n names IH]; intros context; cbn.
  - apply leads_ret; assumption.
  - destruct (tools_get _).
    + apply leads_bind; [assumption|apply leads_executeTool|intros].
      apply leads_bind; [assumption|apply IH|intros; apply leads_ret; assumption].
    + apply IH.
Qed.

Lemma leads_executePlan : forall agent plan context,
  leads R (executePlan env agent plan context).
Proof.
  intros. unfold executePlan. leads_steps. apply leads_dispatch.
Qed.

Lemma leads_generateFinalResponse : forall agent task execution context,
  leads R (generateFinalResponse env agent task execution context).
Proof. intros. unfold generateFinalResponse. leads_steps. Qed.

Lemma leads_processAgentTask : forall agent task conv context,
  leads R (processAgentTask env agent task conv context).
Proof.
  intros. unfold processAgentTask.
  apply leads_try_catch; [assumption| |intros; apply leads_ret; assumption].
  apply leads_bind; [assumption|apply leads_analyzeTask|intros].
  apply leads_bind; [assumption|apply leads_createExecutionPlan|intros].
  apply leads_bind; [assumption|apply leads_executePlan|intros].
  apply leads_bind; [assumption|apply leads_generateFinalResponse|intros].
  leads_steps.
Qed.
End StorePipeline.

#[export] Instance same_store_order : StoreOrder same_store.
Proof.
  split.
  - intros s. split; reflexivity.
  - intros s1 s2 s3 [A1 C1] [A2 C2]. split; congruence.
  - intros s n. split; reflexivity.
Qed.

Lemma conv_extends_refl : forall c, conv_extends c c.
Proof. intros c. repeat split. exists []. rewrite app_nil_r. reflexivity. Qed.

Lemma conv_extends_trans : forall c1 c2 c3,
  conv_extends c1 c2 -> conv_extends c2 c3 -> conv_extends c1 c3.
Proof.
  intros c1 c2 c3 [I1 [A1 [C1 [m1 M1]]]] [I2 [A2 [C2 [m2 M2]]]].
  split; [congruence|split; [congruence|split; [congruence|]]].
  exists (m1 ++ m2)%list. rewrite M2, M1, app_assoc. reflexivity.
Qed.

Lemma convs_grow_refl : forall l, convs_grow l l.
Proof.
  intros l. exists l, []. split; [rewrite app_nil_r; reflexivity|].
  induction l as [|kc l IH]; constructor; [split; [reflexivity|apply conv_extends_refl]|exact IH].
Qed.

Lemma convs_grow_trans : forall l1 l2 l3,
  convs_grow l1 l2 -> convs_grow l2 l3 -> convs_grow l1 l3.
Proof.
  intros l1 l2 l3 [l0 [e1 [-> F1]]] [l0' [e2 [-> F2]]].
  apply Forall2_app_inv_l in F2 as [la [lb [Fa [Fb ->]]]].
  exists la, (lb ++ e2)%list. split; [rewrite app_assoc; reflexivity|].
  clear Fb. revert la Fa. induction F1 as [|x y l l' [K1 E1] F1 IH]; intros la Fa.
  - inversion Fa. constructor.
  - inversion Fa as [|? z ? la' [K2 E2] Fa']; subst.
    constructor; [split; [congruence|eapply conv_extends_trans; eassumption]|].
    apply IH. exact Fa'.
Qed.

#[export] Instance conv_grows_order : StoreOrder conv_grows.
Proof.
  split.
  - intros s. apply convs_grow_refl.
  - intros s1 s2 s3. apply convs_grow_trans.
  - intros s n. apply convs_grow_refl.
Qed.

Lemma grow_pairs_refl : forall l : list (jsval * AgentSDK.Conversation),
  Forall2 (fun kc kc' => fst kc' = fst kc /\ conv_extends (snd kc) (snd kc')) l l.
Proof.
  induction l as [|kc l IH]; constructor; [split; [reflexivity|apply conv_extends_refl]|exact IH].
Qed.

Lemma convs_grow_push_at : forall i t l, convs_grow l (AgentSDK.push_at i t l).
Proof.
  intros i t l. exists (AgentSDK.push_at i t l), []. split; [rewrite app_nil_r; reflexivity|].
  revert i. induction l as [|[k c] l IH]; intros i; destruct i as [|i]; cbn.
  - constructor.
  - constructor.
  - constructor; [|apply grow_pairs_refl].
    split; [reflexivity|]. cbn. repeat split. exists [t]. reflexivity.
  - constructor; [split; [reflexivity|apply conv_extends_refl]|apply IH].
Qed.

Lemma convs_grow_app : forall l x, convs_grow l (l ++ x)%list.
Proof. intros l x. exists l, x. split; [reflexivity|apply grow_pairs_refl]. Qed.

Section ConvFrame.
Import AgentSDK.
Variable env : Env.

Lemma grows_resolve_conversation : forall cid agentId,
  leads conv_grows (resolve_conversation env cid agentId).
Proof.
  intros cid agentId s. unfold resolve_conversation.
  destruct (conv_index _ _); [apply so_refl|]. cbn. apply convs_grow_app.
Qed.

Lemma grows_push_turn : forall i t, leads conv_grows (push_turn i t).
Proof. intros i t s. apply convs_grow_push_at. Qed.

Lemma grows_modify_agents : forall f,
  leads conv_grows (modify (fun s => set_agents s (f (agents s)))).
Proof. intros f s. apply convs_grow_refl. Qed.
End ConvFrame.

#[export] Hint Resolve grows_resolve_conversation grows_push_turn : store.

Section ConvOps.
Import AgentSDK.
Variable env : Env.

Lemma grows_executeAgent : forall agentId task context,
  leads conv_grows (executeAgent env agentId task context).
Proof.
  intros. unfold executeAgent.
  apply leads_try_catch; [exact _| |intro e; apply leads_ret; exact _].
  apply leads_bind; [exact _|apply leads_find_agent; exact _|intro agent].
  apply leads_bind; [exact _|apply leads_getm; exact _|intro cid].
  apply leads_bind; [exact _|leads_steps|intro conversationId].
  apply leads_bind; [exact _|apply grows_resolve_conversation|intro i].
  apply leads_bind; [exact _|apply leads_get_conversation; exact _|intro conversation].
  apply leads_bind; [exact _|apply leads_processAgentTask; exact _|intro r].
  leads_steps.
Qed.

Lemma grows_createAgent : forall config, leads conv_grows (createAgent env config).
Proof.
  intros. unfold createAgent. leads_steps. apply grows_modify_agents.
Qed.

Lemma grows_updateAgent : forall agentId updates,
  leads conv_grows (updateAgent env agentId updates).
Proof.
  intros. unfold updateAgent. leads_steps. apply grows_modify_agents.
Qed.

Lemma grows_deleteAgent : forall agentId, leads conv_grows (deleteAgent env agentId).
Proof.
  intros. unfold deleteAgent. leads_steps. apply grows_modify_agents.
Qed.

Lemma grows_agentCommunication : forall f t m c,
  leads conv_grows (agentCommunication env f t m c).
Proof.
  intros. unfold agentCommunication.
  apply leads_try_catch; [exact _| |intro e; apply leads_ret; exact _].
  apply leads_bind; [exact _|apply leads_gets; exact _|intro a].
  destruct (map_get f a), (map_get t a); try (apply leads_throw; exact _).
  apply leads_bind; [exact _|apply grows_executeAgent|intro r].
  leads_steps.
Qed.

Lemma grows_run_op : forall o, leads conv_grows (run_op env o).
Proof.
  intros [c|a t c|a u|a|a| |f t m c]; cbn.
  - apply grows_createAgent.
  - apply grows_executeAgent.
  - apply grows_updateAgent.
  - apply grows_deleteAgent.
  - apply leads_gets; exact _.
  - intros s. unfold listAgents. destruct (summaries _); apply so_refl.
  - apply grows_agentCommunication.
Qed.
End ConvOps.

Lemma bind_ok_eq : forall S A B (m : M S A) (k : A -> M S B) s a s1,
  m s = (Ok a, s1) -> bind m k s = k a s1.
Proof. intros S A B m k s a s1 E. unfold bind. rewrite E. reflexivity. Qed.

Lemma try_catch_ok_eq : forall S A (m : M S A) h s a s1,
  m s = (Ok a, s1) -> try_catch m h s = (Ok a, s1).
Proof. intros S A m h s a s1 E. unfold try_catch. rewrite E. reflexivity. Qed.

Lemma processAgentTask_obj : forall env agent task conv context s,
  exists fs s1,
    AgentSDK.processAgentTask env agent task conv context s = (Ok (JObj fs), s1) /\
    same_store s s1.
Proof.
  intros env agent task conv context s.
  pose proof (leads_processAgentTask same_store env agent task conv context s) as Hs.
  revert Hs. unfold AgentSDK.processAgentTask, try_catch.
  match goal with
  | |- context [match ?m s with _ => _ end] =>
      assert (Hri : returns_in m (fun a => exists fs, a = JObj fs))
        by (repeat (apply ri_bind; intro); apply ri_ret; eexists; reflexivity);
      destruct (m s) as [[a|e] s1] eqn:E
  end; intros Hs.
  - destruct (Hri _ _ _ E) as [fs ->]. exists fs, s1. split; [reflexivity|exact Hs].
  - eexists _, s1. split; [reflexivity|exact Hs].
Qed.

Lemma push_at_last : forall l t k c,
  AgentSDK.push_at (length l) t (l ++ [(k, c)])%list
  = (l ++ [(k, AgentSDK.mkConv (AgentSDK.conv_id c) (AgentSDK.conv_agentId c)
                               (AgentSDK.conv_messages c ++ [t])%list
                               (AgentSDK.conv_created c))])%list.
Proof.
  induction l as [|[k0 c0] l IH]; intros t k c; cbn; [reflexivity|].
  rewrite IH. reflexivity.
Qed.

(** On a stored agent and a context whose [conversationId] can be read,
    [executeAgent] returns an object, keeps the agents, and appends the user turn
    and then the assistant turn to the conversation of that id, creating the
    conversation at the end of the map when the id is new. *)
Lemma executeAgent_turns : forall env agentId task ctx s a c,
  AgentSDK.map_get agentId (AgentSDK.agents s) = Some a ->
  getp (dflt ctx (JObj [])) (PName "conversationId") = Ok c ->
  let cid := if truthy c then c else JStr (uuidv4 env (AgentSDK.tick s)) in
  exists fs s' t1 t2 created,
    AgentSDK.executeAgent env agentId task ctx s = (Ok (JObj fs), s') /\
    AgentSDK.agents s' = AgentSDK.agents s /\
    let user := JObj [("role", JStr "user"); ("content", task); ("timestamp", JStr t1)] in
    let assistant := JObj [("role", JStr "assistant"); ("content", obj_get fs "response");
                           ("toolCalls", obj_get fs "toolCalls"); ("timestamp", JStr t2)] in
    AgentSDK.conversations s'
    = match AgentSDK.conv_index cid (AgentSDK.conversations s) with
      | Some i => AgentSDK.push_at i assistant (AgentSDK.push_at i user (AgentSDK.conversations s))
      | None => (AgentSDK.conversations s
                 ++ [(cid, AgentSDK.mkConv cid agentId [user; assistant] created)])%list
      end.
Proof.
  intros env agentId task ctx s a c Ha Hc cid.
  assert (Hcid : exists s1,
    (if truthy c then ret c else (u <- uuid (H := AgentSDK.SDK_ticks) env ;; ret (JStr u))) s
    = (Ok cid, s1) /\ same_store s s1).
  { subst cid. destruct (truthy c).
    - exists s. split; [reflexivity|split; reflexivity].
    - eexists. split; [reflexivity|split; reflexivity]. }
  destruct Hcid as [s1 [Ecid [A1 C1]]].
  unfold AgentSDK.executeAgent. cbv zeta.
  rewrite (try_catch_bind_eq _ _ _ _ _ _ s a s) by (unfold AgentSDK.find_agent; rewrite Ha; reflexivity).
  rewrite (try_catch_bind_eq _ _ _ _ _ _ s c s)
    by (unfold AgentSDK.getm, lift; rewrite Hc; reflexivity).
  rewrite (try_catch_bind_eq _ _ _ _ _ _ s cid s1) by exact Ecid.
  rewrite <- A1, <- C1.
  destruct (AgentSDK.conv_index cid (AgentSDK.conversations s1)) as [i|] eqn:Ei.
  - rewrite (try_catch_bind_eq _ _ _ _ _ _ s1 i s1)
      by (unfold AgentSDK.resolve_conversation; rewrite Ei; reflexivity).
    rewrite (try_catch_bind_eq _ _ _ _ _ _ s1 _ s1) by reflexivity.
    match goal with
    | |- context [try_catch (bind (AgentSDK.processAgentTask ?e ?a ?t ?cv ?cx) _) _ ?s0] =>
        destruct (processAgentTask_obj e a t cv cx s0) as [fs [s2 [Ep [A2 C2]]]]
    end.
    rewrite (try_catch_bind_eq _ _ _ _ _ _ s1 _ s2) by exact Ep.
    exists fs. do 3 eexists. exists "". split; [reflexivity|]. cbn. rewrite A2, C2. split; reflexivity.
  - rewrite (try_catch_bind_eq _ _ _ _ _ _ s1 _ _) by
      (unfold AgentSDK.resolve_conversation; rewrite Ei; reflexivity).
    rewrite (try_catch_bind_eq _ _ _ _ _ _ _ _ _) by reflexivity.
    match goal with
    | |- context [try_catch (bind (AgentSDK.processAgentTask ?e ?a ?t ?cv ?cx) _) _ ?s0] =>
        destruct (processAgentTask_obj e a t cv cx s0) as [fs [s2 [Ep [A2 C2]]]]
    end.
    rewrite (try_catch_bind_eq _ _ _ _ _ _ _ _ s2) by exact Ep.
    exists fs. do 4 eexists. split; [reflexivity|].
    cbn. rewrite A2, C2. cbn. split; [reflexivity|].
    rewrite !push_at_last. reflexivity.
Qed.

Lemma executeAgent_obj : forall env agentId task ctx s,
  exists fs s', AgentSDK.executeAgent env agentId task ctx s = (Ok (JObj fs), s').
Proof.
  intros env agentId task ctx s. unfold AgentSDK.executeAgent, try_catch. cbv zeta.
  match goal with
  | |- context [match ?m s with _ => _ end] =>
      assert (Hri : returns_in m (fun a => exists fs, a = JObj fs));
      [|destruct (m s) as [[a|e] s1] eqn:E;
        [destruct (Hri _ _ _ E) as [fs ->]; exists fs, s1; reflexivity
        |eexists _, s1; reflexivity]]
  end.
  do 5 (apply ri_bind; intro).
  intros s0 r s' E. unfold bind in E.
  match type of E with
  | context [AgentSDK.processAgentTask ?e ?a ?t ?cv ?cx s0] =>
      destruct (processAgentTask_obj e a t cv cx s0) as [fs [s2 [Ep _]]]
  end.
  rewrite Ep in E. cbn in E. injection E as <- _. exists fs. reflexivity.
Qed.

(** [agentCommunication] with both agents stored runs [executeAgent] on the
    receiver, with the sender's name in the context, and reports its response;
    with either agent missing it reports ["One or both agents not found"] and
    changes nothing. *)
Theorem agentCommunication_result : forall env f t m ctx s,
  (forall fa ta,
     AgentSDK.map_get f (AgentSDK.agents s) = Some fa ->
     AgentSDK.map_get t (AgentSDK.agents s) = Some ta ->
     exists fs s1 ts s',
       AgentSDK.executeAgent env t m
         (AgentSDK.spread_context (dflt ctx (JObj [])) (obj_get fa "name")) s
       = (Ok (JObj fs), s1) /\
       AgentSDK.agentCommunication env f t m ctx s
       = (Ok (JObj [("success", JBool true); ("from", obj_get fa "name");
                    ("to", obj_get ta "name"); ("message", m);
                    ("response", obj_get fs "response"); ("timestamp", JStr ts)]), s')) /\
  ((AgentSDK.map_get f (AgentSDK.agents s) = None \/
    AgentSDK.map_get t (AgentSDK.agents s) = None) ->
     AgentSDK.agentCommunication env f t m ctx s
     = (Ok (JObj [("success", JBool false); ("error", JStr "One or both agents not found");
                  ("fromAgentId", JStr f); ("toAgentId", JStr t)]), s)).
Proof.
  intros env f t m ctx s. split.
  - intros fa ta Hf Ht.
    destruct (executeAgent_obj env t m
                (AgentSDK.spread_context (dflt ctx (JObj [])) (obj_get fa "name")) s)
      as [fs [s1 E]].
    exists fs, s1. do 2 eexists. split; [exact E|].
    unfold AgentSDK.agentCommunication. cbv zeta.
    rewrite (try_catch_bind_eq _ _ _ _ _ _ s (AgentSDK.agents s) s) by reflexivity.
    cbv beta. rewrite Hf, Ht.
    rewrite (try_catch_bind_eq _ _ _ _ _ _ s _ s1) by exact E.
    reflexivity.
  - intros Hn. unfold AgentSDK.agentCommunication. cbv zeta.
    rewrite (try_catch_bind_eq _ _ _ _ _ _ s (AgentSDK.agents s) s) by reflexivity.
    cbv beta. destruct Hn as [Hn|Hn]; rewrite Hn; [reflexivity|].
    destruct (AgentSDK.map_get f (AgentSDK.agents s)); reflexivity.
Qed.

Lemma convs_grow_length : forall l l', convs_grow l l' -> (length l <= length l')%nat.
Proof.
  intros l l' [l0 [extra [-> F]]]. rewrite length_app.
  rewrite (Forall2_length F). lia.
Qed.

(** No sequence of [AgentSDK] calls removes a conversation or a message: each
    stored conversation keeps its place, key, id, agent and creation time, its
    messages only get appended to, and [getStatus]'s [conversationCount] never
    decreases. *)
Theorem conversations_only_grow : forall env os s,
  let s' := AgentSDK.run_ops env os s in
  convs_grow (AgentSDK.conversations s) (AgentSDK.conversations s') /\
  exists st st' n n',
    AgentSDK.getStatus s = (Ok st, s) /\ AgentSDK.getStatus s' = (Ok st', s') /\
    getp st (PName "conversationCount") = Ok (JNum n) /\
    getp st' (PName "conversationCount") = Ok (JNum n') /\
    (n <= n')%Q.
Proof.
  intros env os s s'.
  assert (G : convs_grow (AgentSDK.conversations s) (AgentSDK.conversations s')).
  { subst s'. revert s. induction os as [|o os IH]; intros s; cbn.
    - apply convs_grow_refl.
    - eapply convs_grow_trans; [apply (grows_run_op env o s)|apply IH]. }
  split; [exact G|].
  do 4 eexists. split; [reflexivity|]. split; [reflexivity|].
  split; [reflexivity|]. split; [reflexivity|].
  apply convs_grow_length in G.
  unfold Qle. cbn. lia.
Qed.

Lemma In_keys_map_set : forall V k (v : V) m x,
  In x (map fst (AgentSDK.map_set k v m)) -> x = k \/ In x (map fst m).
Proof.
  induction m as [|[k' v'] m IH]; intros x; cbn.
  - intros [<-|[]]. left; reflexivity.
  - destruct (String.eqb k k'); cbn.
    + intros [<-|H]; right; [left; reflexivity|right; exact H].
    + intros [<-|H]; [right; left; reflexivity|].
      destruct (IH x H) as [->|H']; [left; reflexivity|right; right; exact H'].
Qed.

Lemma NoDup_map_set : forall V k (v : V) m,
  NoDup (map fst m) -> NoDup (map fst (AgentSDK.map_set k v m)).
Proof.
  induction m as [|[k' v'] m IH]; intros Hnd; cbn.
  - constructor; [intros []|constructor].
  - inversion Hnd as [|? ? Hn Hnd']; subst.
    destruct (String.eqb k k') eqn:E; cbn; [constructor; assumption|].
    constructor; [|apply IH; exact Hnd'].
    intros Hin. destruct (In_keys_map_set _ _ _ _ _ Hin) as [->|H'].
    + rewrite String.eqb_refl in E. discriminate.
    + contradiction.
Qed.

Lemma Forall_map_set_kv : forall V (P : string * V -> Prop) k v m,
  Forall P m -> P (k, v) -> Forall P (AgentSDK.map_set k v m).
Proof.
  induction m as [|[k' v'] m IH]; intros Hm Hv; cbn.
  - constructor; [exact Hv|constructor].
  - inversion Hm; subst. destruct (String.eqb k k') eqn:E.
    + apply String.eqb_eq in E. subst k'. constructor; assumption.
    + constructor; [assumption|apply IH; assumption].
Qed.

Lemma In_keys_map_delete : forall V k (m : list (string * V)) x,
  In x (map fst (AgentSDK.map_delete k m)) -> In x (map fst m).
Proof.
  induction m as [|[k' v'] m IH]; intros x; cbn; [tauto|].
  destruct (String.eqb k k'); cbn; [tauto|].
  intros [<-|H]; [left; reflexivity|right; apply IH; exact H].
Qed.

Lemma NoDup_map_delete : forall V k (m : list (string * V)),
  NoDup (map fst m) -> NoDup (map fst (AgentSDK.map_delete k m)).
Proof.
  induction m as [|[k' v'] m IH]; intros Hnd; cbn; [constructor|].
  inversion Hnd as [|? ? Hn Hnd']; subst.
  destruct (String.eqb k k'); [exact Hnd'|]. cbn.
  constructor; [|apply IH; exact Hnd'].
  intros Hin. apply Hn. apply (In_keys_map_delete _ k). exact Hin.
Qed.

Lemma Forall_map_delete_kv : forall V (P : string * V -> Prop) k m,
  Forall P m -> Forall P (AgentSDK.map_delete k m).
Proof.
  induction m as [|[k' v'] m IH]; intros Hm; cbn; [constructor|].
  inversion Hm; subst. destruct (String.eqb k k'); [assumption|].
  constructor; [assumption|apply IH; assumption].
Qed.

Lemma Forall_map_get_kv : forall V (P : string * V -> Prop) k v m,
  Forall P m -> AgentSDK.map_get k m = Some v -> P (k, v).
Proof.
  induction m as [|[k' v'] m IH]; intros Hm Hget; cbn in Hget; [discriminate|].
  inversion Hm; subst. destruct (String.eqb k k') eqn:E.
  - apply String.eqb_eq in E. subst k'. injection Hget as <-. assumption.
  - apply IH; assumption.
Qed.

Lemma createAgent_ids : forall env config, pres ids_ok (AgentSDK.createAgent env config).
Proof.
  intros env config. unfold AgentSDK.createAgent.
  apply pres_try_catch; [|intros; apply pres_ret].
  pres_steps.
  apply pres_modify_agents. intros l [Hnd Hf]. split.
  - apply NoDup_map_set. exact Hnd.
  - apply (Forall_map_set_kv _ (fun ka => obj_get (snd ka) "id" = JStr (fst ka))); [exact Hf|reflexivity].
Qed.

Lemma updateAgent_ids : forall env agentId updates,
  pres ids_ok (AgentSDK.updateAgent env agentId updates).
Proof.
  intros env agentId updates s [Hnd Hf].
  unfold AgentSDK.updateAgent, AgentSDK.find_agent, try_catch, bind, lift.
  destruct (AgentSDK.map_get agentId (AgentSDK.agents s)) as [a|] eqn:Ea; [|split; assumption].
  destruct (AgentSDK.object_entries updates) as [es|e]; [|split; assumption].
  cbn. split; [apply NoDup_map_set; exact Hnd|].
  apply (Forall_map_set_kv _ (fun ka => obj_get (snd ka) "id" = JStr (fst ka))); [exact Hf|]. cbn.
  rewrite obj_get_set. cbn.
  rewrite apply_updates_other by (cbn; intuition discriminate).
  exact (Forall_map_get_kv _ (fun ka => obj_get (snd ka) "id" = JStr (fst ka)) _ _ _ Hf Ea).
Qed.

Lemma deleteAgent_ids : forall env agentId, pres ids_ok (AgentSDK.deleteAgent env agentId).
Proof.
  intros env agentId. unfold AgentSDK.deleteAgent.
  apply pres_try_catch; [|intros; apply pres_ret].
  apply pres_bind; [apply pres_find_agent|intros a].
  apply pres_bind; [|intros; apply pres_ret].
  apply pres_modify_agents. intros l [Hnd Hf]. split.
  - apply NoDup_map_delete. exact Hnd.
  - apply Forall_map_delete_kv. exact Hf.
Qed.

Lemma run_ops_ids : forall env os s,
  ids_ok (AgentSDK.agents s) -> ids_ok (AgentSDK.agents (AgentSDK.run_ops env os s)).
Proof.
  induction os as [|o os IH]; intros s H; cbn; [exact H|].
  apply IH. destruct o; cbn.
  - apply createAgent_ids. exact H.
  - apply pres_executeAgent. exact H.
  - apply updateAgent_ids. exact H.
  - apply deleteAgent_ids. exact H.
  - exact H.
  - apply (pres_listAgents ids_ok). exact H.
  - apply pres_agentCommunication. exact H.
Qed.

Lemma summaries_ids : forall l xs,
  AgentSDK.summaries l = Ok xs ->
  map (fun x => getp x (PName "id")) xs = map (fun ka => Ok (obj_get (snd ka) "id")) l.
Proof.
  induction l as [|[k a] l IH]; intros xs E; cbn in E.
  - injection E as <-. reflexivity.
  - unfold AgentSDK.agent_summary in E.
    destruct (getp _ (PName "length")) as [c|e]; [|discriminate].
    destruct (AgentSDK.summaries l) as [ys|e]; [|discriminate].
    injection E as <-. cbn. rewrite (IH ys eq_refl). reflexivity.
Qed.

(** From [new AgentSDK()], after any calls, the agent keys are distinct and
    each agent's [id] is its key; [listAgents] lists them in insertion order with
    [total] their number, and [getStatus] reports the same [agentCount]. *)
Theorem agents_listing : forall env os,
  let s := AgentSDK.run_ops env os AgentSDK.initial in
  let n := JNum (inject_Z (Z.of_nat (length (AgentSDK.agents s)))) in
  NoDup (map fst (AgentSDK.agents s)) /\
  (forall k a, AgentSDK.map_get k (AgentSDK.agents s) = Some a -> obj_get a "id" = JStr k) /\
  (exists xs,
     AgentSDK.listAgents s
     = (Ok (JObj [("agents", JArr xs); ("total", n);
                  ("availableTools", JArr (map JStr AgentSDK.tool_names))]), s) /\
     map (fun x => getp x (PName "id")) xs
     = map (fun ka => Ok (JStr (fst ka))) (AgentSDK.agents s)) /\
  (exists st, AgentSDK.getStatus s = (Ok st, s) /\ getp st (PName "agentCount") = Ok n).
Proof.
  intros env os s n.
  assert (Hids : ids_ok (AgentSDK.agents s)).
  { apply run_ops_ids. split; constructor. }
  assert (Hnc : no_conversations (AgentSDK.agents s)).
  { apply run_ops_no_conversations. constructor. }
  destruct Hids as [Hnd Hf].
  split; [exact Hnd|]. split.
  { intros k a Ha. exact (Forall_map_get_kv _ (fun ka => obj_get (snd ka) "id" = JStr (fst ka)) _ _ _ Hf Ha). }
  split.
  - destruct (summaries_no_conversations _ Hnc) as [xs [Hs [Hlen _]]].
    exists xs. split.
    + unfold AgentSDK.listAgents. rewrite Hs, Hlen. reflexivity.
    + rewrite (summaries_ids _ _ Hs). clear -Hf.
      induction Hf as [|[k a] l Ha Hf IH]; cbn; [reflexivity|].
      cbn in Ha. rewrite Ha, IH. reflexivity.
  - eexists. split; reflexivity.
Qed.

(** [createAgent] with a truthy name (and a system prompt or an array of
    capabilities to build one from) stores the agent under a fresh uuid that
    [getAgent] then returns with every default filled in, without touching the
    other agents or the conversations. *)
Theorem createAgent_getAgent : forall env fs s,
  truthy (obj_get fs "name") = true ->
  (truthy (obj_get fs "systemPrompt") = true \/
   exists xs, dflt (obj_get fs "capabilities") (JArr []) = JArr xs) ->
  let id := uuidv4 env (AgentSDK.tick s) in
  exists prompt created s',
    AgentSDK.createAgent env (JObj fs) s
    = (Ok (JObj [("success", JBool true);
                 ("agent", JObj [("id", JStr id); ("name", obj_get fs "name");
                                 ("description", obj_get fs "description");
                                 ("capabilities", dflt (obj_get fs "capabilities") (JArr []));
                                 ("tools", dflt (obj_get fs "tools") (JArr []));
                                 ("created", JStr created)])]), s') /\
    AgentSDK.getAgent id s'
    = (Ok (JObj [("success", JBool true);
                 ("agent", JObj [("id", JStr id); ("name", obj_get fs "name");
                                 ("description", obj_get fs "description");
                                 ("capabilities", dflt (obj_get fs "capabilities") (JArr []));
                                 ("systemPrompt", prompt);
                                 ("tools", dflt (obj_get fs "tools") (JArr []));
                                 ("personality", dflt (obj_get fs "personality") (JStr "helpful"));
                                 ("memory", dflt (obj_get fs "memory") (JBool true));
                                 ("max_tokens", dflt (obj_get fs "max_tokens") (JNum 2000));
                                 ("temperature", dflt (obj_get fs "temperature") (JNum (7 # 10)));
                                 ("created", JStr created);
                                 ("conversations", JArr []);
                                 ("status", JStr "active")])]), s') /\
    (truthy (obj_get fs "systemPrompt") = true -> prompt = obj_get fs "systemPrompt") /\
    (forall k, k <> id -> AgentSDK.map_get k (AgentSDK.agents s') = AgentSDK.map_get k (AgentSDK.agents s)) /\
    AgentSDK.conversations s' = AgentSDK.conversations s.
Proof.
  intros env fs s Hn Hsp id.
  unfold AgentSDK.createAgent, try_catch, bind, lift.
  cbn [AgentSDK.destructure getp prop_text]. rewrite Hn. cbn [negb].
  set (s1 := AgentSDK.mkSDK (AgentSDK.agents s) (AgentSDK.conversations s) (S (AgentSDK.tick s))).
  assert (Hu : uuid (H := AgentSDK.SDK_ticks) env s = (Ok id, s1)) by reflexivity.
  rewrite Hu. cbv iota beta.
  match goal with
  | |- context [(if truthy ?sp then ?A else ?B) s1] =>
      assert (Hp : exists p, (if truthy sp then A else B) s1 = (Ok p, s1) /\
                            (truthy sp = true -> p = sp));
      [|destruct Hp as [p [Ep Hp']]; rewrite Ep]
  end.
  { destruct (truthy (obj_get fs "systemPrompt")) eqn:E.
    - eexists. split; [reflexivity|]. intros _. reflexivity.
    - destruct Hsp as [C|[xs Hx]]; [congruence|].
      unfold AgentSDK.generateDefaultSystemPrompt. rewrite Hx. cbn.
      eexists. split; [reflexivity|]. discriminate. }
  cbv iota beta. cbn.
  exists p. do 2 eexists. split; [reflexivity|].
  split; [unfold AgentSDK.getAgent, gets; cbn; rewrite map_get_set, String.eqb_refl; reflexivity|].
  split; [exact Hp'|]. split; [|reflexivity].
  intros k Hk. cbn. rewrite map_get_set. apply String.eqb_neq in Hk. rewrite Hk. reflexivity.
Qed.

(** [createAgent] rejects [undefined] and [null] configs and a falsy name
    without changing the state; with no system prompt and capabilities that are
    not an array it fails in [generateDefaultSystemPrompt] before storing anything. *)
Theorem createAgent_rejects : forall env s,
  AgentSDK.createAgent env JUndef s
    = (Ok (AgentSDK.jobj_error "Cannot destructure property 'name' of 'config' as it is undefined."), s) /\
  AgentSDK.createAgent env JNull s
    = (Ok (AgentSDK.jobj_error "Cannot destructure property 'name' of 'config' as it is null."), s) /\
  (forall fs, truthy (obj_get fs "name") = false ->
     AgentSDK.createAgent env (JObj fs) s = (Ok (AgentSDK.jobj_error "Agent name is required"), s)) /\
  (forall fs, truthy (obj_get fs "name") = true ->
     truthy (obj_get fs "systemPrompt") = false ->
     (forall xs, dflt (obj_get fs "capabilities") (JArr []) <> JArr xs) ->
     exists e s', AgentSDK.createAgent env (JObj fs) s = (Ok (AgentSDK.jobj_error e), s') /\
                  AgentSDK.agents s' = AgentSDK.agents s /\
                  AgentSDK.conversations s' = AgentSDK.conversations s).
Proof.
  intros env s. split; [reflexivity|]. split; [reflexivity|]. split.
  - intros fs Hn. unfold AgentSDK.createAgent, try_catch, bind, lift.
    cbn [AgentSDK.destructure getp prop_text]. rewrite Hn. reflexivity.
  - intros fs Hn Hsp Hc. unfold AgentSDK.createAgent, try_catch, bind, lift.
    cbn [AgentSDK.destructure getp prop_text]. rewrite Hn. cbn [negb].
    set (s1 := AgentSDK.mkSDK (AgentSDK.agents s) (AgentSDK.conversations s) (S (AgentSDK.tick s))).
    assert (Hu : uuid (H := AgentSDK.SDK_ticks) env s = (Ok (uuidv4 env (AgentSDK.tick s)), s1))
      by reflexivity.
    rewrite Hu. cbv iota beta. rewrite Hsp.
    unfold AgentSDK.generateDefaultSystemPrompt.
    destruct (dflt (obj_get fs "capabilities") (JArr [])) eqn:Ec;
      try (exfalso; eapply Hc; reflexivity);
      cbn; do 2 eexists; (split; [reflexivity|split; reflexivity]).
Qed.

Lemma map_get_delete_other : forall V k k' (m : list (string * V)),
  k' <> k -> AgentSDK.map_get k' (AgentSDK.map_delete k m) = AgentSDK.map_get k' m.
Proof.
  induction m as [|[k0 v0] m IH]; intros Hne; cbn; [reflexivity|].
  destruct (String.eqb k k0) eqn:E; cbn.
  - apply String.eqb_eq in E. subst k0. apply String.eqb_neq in Hne. rewrite Hne. reflexivity.
  - rewrite IH by exact Hne. reflexivity.
Qed.

Lemma map_get_none_keys : forall V k (m : list (string * V)),
  ~ In k (map fst m) -> AgentSDK.map_get k m = None.
Proof.
  induction m as [|[k0 v0] m IH]; intros Hn; cbn; [reflexivity|].
  destruct (String.eqb k k0) eqn:E.
  - apply String.eqb_eq in E. subst k0. exfalso. apply Hn. left. reflexivity.
  - apply IH. intros H. apply Hn. right. exact H.
Qed.

Lemma map_get_delete_same : forall V k (m : list (string * V)),
  NoDup (map fst m) -> AgentSDK.map_get k (AgentSDK.map_delete k m) = None.
Proof.
  induction m as [|[k0 v0] m IH]; intros Hnd; cbn; [reflexivity|].
  inversion Hnd as [|? ? Hn Hnd']; subst.
  destruct (String.eqb k k0) eqn:E.
  - apply String.eqb_eq in E. subst k0. apply map_get_none_keys. exact Hn.
  - cbn. rewrite E. apply IH. exact Hnd'.
Qed.

(** [deleteAgent] of an unknown id reports ["Agent not found"] and changes
    nothing; of a stored agent it reports its name, after which [getAgent]
    finds no agent under that id, while the other agents and the conversations
    are unchanged. *)
Theorem deleteAgent_getAgent : forall env k s,
  NoDup (map fst (AgentSDK.agents s)) ->
  (AgentSDK.map_get k (AgentSDK.agents s) = None ->
     AgentSDK.deleteAgent env k s = (Ok (AgentSDK.jobj_error "Agent not found"), s)) /\
  (forall a, AgentSDK.map_get k (AgentSDK.agents s) = Some a ->
     exists s',
       AgentSDK.deleteAgent env k s
       = (Ok (JObj [("success", JBool true);
                    ("message", JStr ("Agent " ++ js_to_string env (obj_get a "name")
                                      ++ " deleted successfully"))]), s') /\
       AgentSDK.getAgent k s' = (Ok (AgentSDK.jobj_error "Agent not found"), s') /\
       (forall k', k' <> k -> AgentSDK.map_get k' (AgentSDK.agents s') = AgentSDK.map_get k' (AgentSDK.agents s)) /\
       AgentSDK.conversations s' = AgentSDK.conversations s).
Proof.
  intros env k s Hnd. split.
  - intros Hk. unfold AgentSDK.deleteAgent, try_catch, bind, AgentSDK.find_agent.
    rewrite Hk. reflexivity.
  - intros a Ha. unfold AgentSDK.deleteAgent, try_catch, bind, AgentSDK.find_agent.
    rewrite Ha. eexists. split; [reflexivity|]. split.
    + unfold AgentSDK.getAgent, gets. cbn. rewrite map_get_delete_same by exact Hnd. reflexivity.
    + split; [|reflexivity]. intros k' Hk'. cbn. apply map_get_delete_other. exact Hk'.
Qed.

(** ** Custom agents of [OpenAIAgentsSDK] *)

Lemma dec_digit_of (d : nat) : (d < 10)%nat ->
  OpenAIAgentsSDK.dec_digit (ascii_of_nat (48 + d)) = Some (Z.of_nat d).
Proof.
  intro Hd. unfold OpenAIAgentsSDK.dec_digit.
  rewrite nat_ascii_embedding by lia.
  replace (Nat.leb 48 (48 + d) && Nat.leb (48 + d) 57) with true.
  - f_equal. f_equal. lia.
  - symmetry. apply andb_true_intro. split; apply Nat.leb_le; lia.
Qed.

Lemma dec_digits_value : forall f n acc a, (n < f)%nat ->
  exists k, OpenAIAgentsSDK.digits_value 10 OpenAIAgentsSDK.dec_digit
              (dec_digits f n acc) a
          = OpenAIAgentsSDK.digits_value 10 OpenAIAgentsSDK.dec_digit acc
              (Some (match a with Some x => x | None => 0 end * 10 ^ Z.of_nat k
                     + Z.of_nat n)%Z).
Proof.
  induction f as [|f IH]; intros n acc a Hn; [lia|].
  cbn [dec_digits].
  assert (Hm : (n mod 10 < 10)%nat) by (apply Nat.mod_upper_bound; lia).
  destruct (Nat.ltb n 10) eqn:Hlt.
  - apply Nat.ltb_lt in Hlt. exists 1%nat.
    cbn [OpenAIAgentsSDK.digits_value]. rewrite dec_digit_of by exact Hm.
    rewrite Nat.mod_small by exact Hlt. f_equal. f_equal. lia.
  - apply Nat.ltb_ge in Hlt.
    destruct (IH (n / 10)%nat (String (ascii_of_nat (48 + n mod 10)) acc) a)
      as [k Hk].
    { apply Nat.lt_le_trans with n; [apply Nat.div_lt; lia | lia]. }
    exists (S k). rewrite Hk. cbn [OpenAIAgentsSDK.digits_value].
    rewrite dec_digit_of by exact Hm. f_equal. f_equal.
    rewrite (Nat.div_mod_eq n 10) at 3.
    rewrite Nat2Z.inj_add, Nat2Z.inj_mul, Nat2Z.inj_succ, Z.pow_succ_r by lia.
    lia.
Qed.

Lemma dec_digits_head : forall f n acc, (n < f)%nat ->
  exists d rest, (d < 10)%nat /\ dec_digits f n acc = String (ascii_of_nat (48 + d)) rest
                 /\ (d = 0%nat -> n = 0%nat /\ rest = acc).
Proof.
  induction f as [|f IH]; intros n acc Hn; [lia|].
  cbn [dec_digits].
  destruct (Nat.ltb n 10) eqn:Hlt.
  - apply Nat.ltb_lt in Hlt. exists n, acc.
    rewrite Nat.mod_small by exact Hlt. repeat split; auto.
  - apply Nat.ltb_ge in Hlt.
    destruct (IH (n / 10)%nat (String (ascii_of_nat (48 + n mod 10)) acc))
      as [d [rest [Hd [Eq Hz]]]].
    { apply Nat.lt_le_trans with n; [apply Nat.div_lt; lia | lia]. }
    exists d, rest. split; [exact Hd|]. split; [exact Eq|].
    intro H0. destruct (Hz H0) as [H1 _].
    pose proof (Nat.div_mod_eq n 10). pose proof (Nat.mod_upper_bound n 10). lia.
Qed.

Lemma dec_digits_chars : forall f n acc,
  all_chars is_dec_digit acc = true ->
  all_chars is_dec_digit (dec_digits f n acc) = true.
Proof.
  induction f as [|f IH]; intros n acc Hacc; cbn [dec_digits]; [exact Hacc|].
  assert (Hc : all_chars is_dec_digit (String (ascii_of_nat (48 + n mod 10)) acc) = true).
  { cbn [all_chars]. unfold is_dec_digit.
    rewrite dec_digit_of by (apply Nat.mod_upper_bound; lia). exact Hacc. }
  destruct (Nat.ltb n 10); [exact Hc | apply IH, Hc].
Qed.

Lemma split_dash_no_dash : forall d,
  all_chars is_dec_digit d = true -> OpenAIAgentsSDK.split_dash d = [d].
Proof.
  induction d as [|c d IH]; intro H; [reflexivity|].
  cbn [all_chars] in H. apply andb_prop in H. destruct H as [Hc Hd].
  cbn [OpenAIAgentsSDK.split_dash]. rewrite IH by exact Hd.
  destruct (Ascii.eqb c "-") eqn:E; [|reflexivity].
  apply Ascii.eqb_eq in E. subst c. discriminate Hc.
Qed.

(** [parseInt] reads back the decimal spelling of a natural number. *)
Lemma parseInt_dec_string (n : nat) :
  OpenAIAgentsSDK.parseInt (dec_string n) = Some (Z.of_nat n).
Proof.
  unfold dec_string.
  destruct (dec_digits_value (S n) n "" None ltac:(lia)) as [k Hk].
  destruct (dec_digits_head (S n) n "" ltac:(lia)) as [d [rest [Hd [Eq Hz]]]].
  cbn [OpenAIAgentsSDK.digits_value] in Hk.
  revert Hk Hz. rewrite Eq. intros Hk Hz.
  assert (Hv : OpenAIAgentsSDK.digits_value 10 OpenAIAgentsSDK.dec_digit
                 (String (ascii_of_nat (48 + d)) rest) None = Some (Z.of_nat n))
    by (rewrite Hk; f_equal; lia).
  clear Hk Eq.
  destruct d as [|[|[|[|[|[|[|[|[|[|d]]]]]]]]]]; [| | | | | | | | | | lia];
    [destruct (Hz eq_refl); subst; reflexivity|..];
    unfold OpenAIAgentsSDK.parseInt; lazy -[OpenAIAgentsSDK.digits_value OpenAIAgentsSDK.dec_digit Z.of_nat Z.mul] in Hv |- *;
    rewrite Hv; f_equal; lia.
Qed.

(** [agentType.split('-')[1]] of a [custom-<digits>] id. *)
Lemma split_dash_custom (n : nat) :
  nth 1 (OpenAIAgentsSDK.split_dash ("custom-" ++ dec_string n)) EmptyString = dec_string n.
Proof.
  change (OpenAIAgentsSDK.split_dash ("custom-" ++ dec_string n))
    with ("custom" :: OpenAIAgentsSDK.split_dash (dec_string n)).
  rewrite split_dash_no_dash; [reflexivity|].
  apply dec_digits_chars. reflexivity.
Qed.

Lemma prefix_self_app : forall a b, String.prefix a (a ++ b) = true.
Proof.
  induction a as [|c a IH]; intro b; [destruct b; reflexivity|].
  cbn. destruct (ascii_dec c c) as [_|Hne]; [apply IH | contradiction].
Qed.

Lemma resolve_agent_custom_dec : forall n s,
  OpenAIAgentsSDK.resolve_agent (JStr ("custom-" ++ dec_string n)) s
  = (match nth_error (OpenAIAgentsSDK.customAgents s) n with
     | Some kv => Ok (snd kv)
     | None => Throw "Custom agent not found"
     end, s).
Proof.
  intros n s. unfold OpenAIAgentsSDK.resolve_agent.
  rewrite prefix_self_app.
  cbv iota beta. unfold bind, gets.
  rewrite split_dash_custom, parseInt_dec_string.
  unfold OpenAIAgentsSDK.custom_at.
  replace (Z.leb 0 (Z.of_nat n)) with true by (symmetry; apply Z.leb_le; lia).
  rewrite Nat2Z.id.
  destruct (nth_error (OpenAIAgentsSDK.customAgents s) n); reflexivity.
Qed.


(** [runAgent]'s primary path looks a ['custom-<n>'] agent type up by
    position: [parseInt] of the part after the dash is used as an index into
    the custom agents in insertion order, not as a key of the map. *)
Theorem resolve_custom_index : forall n s,
  OpenAIAgentsSDK.resolve_agent (JStr ("custom-" ++ dec_string n)) s
  = (match nth_error (OpenAIAgentsSDK.customAgents s) n with
     | Some kv => Ok (snd kv)
     | None => Throw "Custom agent not found"
     end, s).
Proof. intros n s. apply resolve_agent_custom_dec. Qed.

Lemma map_set_length {V} : forall k (v : V) m,
  (length (AgentSDK.map_set k v m) <= S (length m))%nat.
Proof.
  intros k v m. induction m as [|[k' v'] m IH]; cbn; [lia|].
  destruct (String.eqb k k'); cbn; lia.
Qed.

(** The id [createCustomAgent] returns never reaches that agent through
    [runAgent] once [Date.now()] exceeds the number of custom agents: the
    lookup reads ['custom-<ms>'] as the index [ms], fails with ["Custom agent not
    found"], and [runAgent] turns on [useFallback] and answers with the generic
    Custom Agent persona of the fallback. *)
Theorem createCustomAgent_id_unreachable : forall env name instructions model input s,
  let ms := now_ms env (OpenAIAgentsSDK.tick s) in
  num_to_string env (inject_Z ms) = dec_string (Z.to_nat ms) ->
  OpenAIAgentsSDK.useFallback s = false ->
  (length (OpenAIAgentsSDK.customAgents s) < Z.to_nat ms)%nat ->
  let id := "custom-" ++ dec_string (Z.to_nat ms) in
  exists s1,
    OpenAIAgentsSDK.createCustomAgent env name instructions model s
    = (Ok (JObj [("success", JBool true);
                 ("agent", JObj [("id", JStr id); ("name", JStr name);
                                 ("instructions", JStr instructions);
                                 ("model", JStr model)])]), s1) /\
    OpenAIAgentsSDK.useFallback s1 = false /\
    OpenAIAgentsSDK.runAgent env (JStr id) input s1
    = OpenAIAgentsSDK.runFallbackAgent env (JStr id) input
        (OpenAIAgentsSDK.set_useFallback s1 true) /\
    OpenAIAgentsSDK.fallback_persona env (JStr id) input = OpenAIAgentsSDK.custom_persona.
Proof.
  intros env name instructions model input s ms Hnum Hfb Hlen id.
  set (s1 := OpenAIAgentsSDK.mkSDK (OpenAIAgentsSDK.useFallback s)
               (AgentSDK.map_set id (mkOAgent name instructions (Some model) [])
                  (OpenAIAgentsSDK.customAgents s))
               (S (OpenAIAgentsSDK.tick s))).
  exists s1. split; [|split; [exact Hfb|split]].
  - unfold OpenAIAgentsSDK.createCustomAgent, ext, next_tick, bind, lift, modify, ret.
    cbn [tick_of with_tick OpenAIAgentsSDK.SDK_ticks js_to_string].
    fold ms. rewrite Hnum. reflexivity.
  - unfold OpenAIAgentsSDK.runAgent, try_catch, bind, gets.
    cbn [OpenAIAgentsSDK.useFallback s1]. rewrite Hfb.
    unfold OpenAIAgentsSDK.runPrimary, bind. unfold id.
    rewrite resolve_agent_custom_dec.
    replace (nth_error (OpenAIAgentsSDK.customAgents s1) (Z.to_nat ms)) with (@None (string * OAgent)).
    + reflexivity.
    + symmetry. apply nth_error_None. cbn [OpenAIAgentsSDK.customAgents s1].
      pose proof (map_set_length id (mkOAgent name instructions (Some model) [])
                    (OpenAIAgentsSDK.customAgents s)). lia.
  - reflexivity.
Qed.

Lemma map_set_fresh {V} : forall k (v : V) m,
  AgentSDK.map_get k m = None -> AgentSDK.map_set k v m = (m ++ [(k, v)])%list.
Proof.
  intros k v m. induction m as [|[k' v'] m IH]; cbn; [reflexivity|].
  destruct (String.eqb k k'); [discriminate|]. intro H. rewrite IH by exact H. reflexivity.
Qed.

Lemma map_set_present {V} : forall k (v : V) m,
  AgentSDK.map_get k m <> None ->
  length (AgentSDK.map_set k v m) = length m /\ In (k, v) (AgentSDK.map_set k v m).
Proof.
  intros k v m. induction m as [|[k' v'] m IH]; cbn; [congruence|].
  destruct (String.eqb k k') eqn:E; intro H.
  - apply String.eqb_eq in E. subst k'. cbn. auto.
  - destruct (IH H) as [H1 H2]. cbn. auto.
Qed.

(** After [createCustomAgent], [getAvailableAgents] lists the new agent last
    with type ['custom'] when its id is new; an id already present (a second
    agent created in the same millisecond) replaces the earlier agent in place,
    so the list does not grow. *)
Theorem createCustomAgent_listing : forall env name instructions model s,
  let id := "custom-" ++ js_to_string env
                          (JNum (inject_Z (now_ms env (OpenAIAgentsSDK.tick s)))) in
  let entry := JObj [("id", JStr id); ("name", JStr name); ("type", JStr "custom")] in
  exists r s1 ys xs,
    OpenAIAgentsSDK.createCustomAgent env name instructions model s = (Ok r, s1) /\
    OpenAIAgentsSDK.getAvailableAgents s = (Ok (JArr ys), s) /\
    OpenAIAgentsSDK.getAvailableAgents s1 = (Ok (JArr xs), s1) /\
    (AgentSDK.map_get id (OpenAIAgentsSDK.customAgents s) = None ->
     xs = (ys ++ [entry])%list) /\
    (AgentSDK.map_get id (OpenAIAgentsSDK.customAgents s) <> None ->
     length xs = length ys /\ In entry xs).
Proof.
  intros env name instructions model s id entry.
  do 4 eexists. split.
  { unfold OpenAIAgentsSDK.createCustomAgent, ext, next_tick, bind, lift, modify, ret.
    cbn [tick_of with_tick OpenAIAgentsSDK.SDK_ticks]. reflexivity. }
  split; [reflexivity|]. split; [reflexivity|].
  cbn [OpenAIAgentsSDK.customAgents]. fold id. split.
  - intro H. rewrite map_set_fresh by exact H. rewrite map_app. cbn.
    reflexivity.
  - intro H. destruct (map_set_present id (mkOAgent name instructions (Some model) [])
                         (OpenAIAgentsSDK.customAgents s) H) as [Hl Hin].
    split.
    + rewrite !length_app, !length_map, Hl. reflexivity.
    + apply in_or_app. right.
      apply (in_map (fun kv => JObj [("id", JStr (fst kv));
                                      ("name", JStr (oagent_name (snd kv)));
                                      ("type", JStr "custom")])) in Hin.
      exact Hin.
Qed.

(** ** [TextToImageAgent.generateVariation] *)


(** ** Witnesses of the extra properties *)

Lemma generateImage_request_witness :
  TextToImageAgent.validatePrompt (JStr "a red fox") = JObj [("valid", JBool true)] /\
  snd (TextToImageAgent.generateImage env_down (fun _ _ => Ok (JObj [("data", JArr [])]))
         (JStr "a red fox") (JObj [("model", JStr "dall-e-3")]) 0%nat) = 1%nat.
Proof.
  split; [vm_compute; reflexivity|].
  exact (proj1 (generateImage_request env_down (fun _ _ => Ok (JObj [("data", JArr [])]))
                  (JStr "a red fox") [("model", JStr "dall-e-3")] 0%nat
                  ltac:(vm_compute; reflexivity))).
Defined.


Lemma executeAgent_turns_witness :
  exists fs s',
    AgentSDK.executeAgent env_down "u0" (JStr "Do it") (JObj [])
      (sdk_with_helper env_down (JArr [])) = (Ok (JObj fs), s').
Proof.
  edestruct (executeAgent_turns env_down "u0" (JStr "Do it") (JObj [])
               (sdk_with_helper env_down (JArr [])))
    as [fs [s' [t1 [t2 [cr [H _]]]]]]; [reflexivity|reflexivity|].
  exists fs, s'. exact H.
Defined.

Lemma createAgent_getAgent_witness :
  exists r s',
    AgentSDK.createAgent env_down
      (JObj [("name", JStr "Helper"); ("systemPrompt", JStr "Be brief")])
      AgentSDK.initial = (Ok r, s').
Proof.
  destruct (createAgent_getAgent env_down
              [("name", JStr "Helper"); ("systemPrompt", JStr "Be brief")]
              AgentSDK.initial eq_refl (or_introl eq_refl))
    as [p [c [s' [H _]]]].
  eexists. exists s'. exact H.
Defined.

Lemma deleteAgent_getAgent_witness :
  NoDup (map fst (AgentSDK.agents (sdk_with_helper env_down (JArr [])))) /\
  exists s',
    AgentSDK.getAgent "u0" s' = (Ok (AgentSDK.jobj_error "Agent not found"), s') /\
    fst (AgentSDK.deleteAgent env_down "u0" (sdk_with_helper env_down (JArr [])))
    = Ok (JObj [("success", JBool true); ("message", JStr "Agent Helper deleted successfully")]).
Proof.
  assert (Hnd : NoDup (map fst (AgentSDK.agents (sdk_with_helper env_down (JArr []))))).
  { vm_compute. constructor; [intros []|constructor]. }
  split; [exact Hnd|].
  destruct (proj2 (deleteAgent_getAgent env_down "u0" (sdk_with_helper env_down (JArr [])) Hnd)
              _ eq_refl) as [s' [H1 [H2 _]]].
  exists s'. split; [exact H2|]. rewrite H1. reflexivity.
Defined.

Lemma createCustomAgent_id_unreachable_witness :
  exists r s1,
    OpenAIAgentsSDK.createCustomAgent env_clock "Poet" "Write short poems." "gpt-4"
      OpenAIAgentsSDK.initial = (Ok r, s1) /\
    OpenAIAgentsSDK.runAgent env_clock (JStr "custom-5") (JStr "A poem, please") s1
    = OpenAIAgentsSDK.runFallbackAgent env_clock (JStr "custom-5") (JStr "A poem, please")
        (OpenAIAgentsSDK.set_useFallback s1 true).
Proof.
  destruct (createCustomAgent_id_unreachable env_clock "Poet" "Write short poems." "gpt-4"
              (JStr "A poem, please") OpenAIAgentsSDK.initial
              ltac:(vm_compute; reflexivity) eq_refl ltac:(vm_compute; lia))
    as [s1 [Hc [_ [Hr _]]]].
  eexists. exists s1. split; [exact Hc | exact Hr].
Defined.
